(** * trackball.js: the rotation-method engine and the drag state machine

    A shallow embedding of [src/trackball.js] (class [Trackball]) and the
    properties of its specification.

    Numbers.  JavaScript numbers are modelled by [num]: a real number or
    the token [NaN].  Arithmetic is the arithmetic of the reals on finite
    values (the rounding of doubles is not modelled) and [NaN] is
    absorbing, as in JavaScript.  A quotient by zero and the square root
    of a negative number return [NaN]: JavaScript returns an infinity or
    NaN there, and no statement below depends on what a non-finite value
    does afterwards; the statements that divide either carry the
    hypothesis that the divisor is not zero or prove it.  Comparisons
    are the decisions of the order of the reals ([Rlt_dec], [Rle_dec],
    [Req_dec_T]), so the functions below are evaluated in proofs by
    rewriting, not by computation.

    The quaternion primitive.  [Quaternion] (rawify/Quaternion.js) is a
    dependency, not part of the repository.  Its constructor, [ONE],
    [mul] (the Hamilton product) and [fromEuler] (order 'XYZ') are written
    out from their closed forms; [fromVectors], whose result depends on
    the tolerances of the library, is a parameter of the development,
    and [shortestArc] is a reference instance of it. *)

From Stdlib Require Import Reals Lra Bool List String.
Import ListNotations.

Local Open Scope R_scope.

(** ** JavaScript numbers *)

Inductive num : Type :=
| Fin (r : R)
| NaN.

Coercion Fin : R >-> num.

Declare Scope num_scope.
Delimit Scope num_scope with num.
Bind Scope num_scope with num.

Definition lift1 (f : R -> R) (a : num) : num :=
  match a with
  | Fin x => Fin (f x)
  | NaN => NaN
  end.

Definition lift2 (f : R -> R -> R) (a b : num) : num :=
  match a with
  | Fin x => match b with
             | Fin y => Fin (f x y)
             | NaN => NaN
             end
  | NaN => NaN
  end.

Definition nadd : num -> num -> num := lift2 Rplus.
Definition nsub : num -> num -> num := lift2 Rminus.
Definition nmul : num -> num -> num := lift2 Rmult.
Definition nneg : num -> num := lift1 Ropp.

(** [a / b]; a zero divisor gives a non-finite result. *)
Definition ndiv (a b : num) : num :=
  match a with
  | Fin x => match b with
             | Fin y => if Req_dec_T y 0 then NaN else Fin (x / y)
             | NaN => NaN
             end
  | NaN => NaN
  end.

(** [Math.sqrt] *)
Definition nsqrt (a : num) : num :=
  match a with
  | Fin x => if Rlt_dec x 0 then NaN else Fin (sqrt x)
  | NaN => NaN
  end.

(** [Math.cos], [Math.sin], [Math.min], [Math.max], [Math.PI] *)
Definition ncos : num -> num := lift1 cos.
Definition nsin : num -> num := lift1 sin.
Definition nmin : num -> num -> num := lift2 Rmin.
Definition nmax : num -> num -> num := lift2 Rmax.
Definition Math_PI : num := Fin PI.

(** Comparisons: any comparison with [NaN] is false. *)
Definition nlt (a b : num) : bool :=
  match a, b with
  | Fin x, Fin y => if Rlt_dec x y then true else false
  | _, _ => false
  end.

Definition nle (a b : num) : bool :=
  match a, b with
  | Fin x, Fin y => if Rle_dec x y then true else false
  | _, _ => false
  end.

Definition nge (a b : num) : bool := nle b a.

(** [a === b] on numbers *)
Definition neqb (a b : num) : bool :=
  match a, b with
  | Fin x, Fin y => if Req_dec_T x y then true else false
  | _, _ => false
  end.

(** A field that may hold [undefined]: in arithmetic [undefined] converts
    to NaN. *)
Definition toNumber (v : option num) : num :=
  match v with
  | Some n => n
  | None => NaN
  end.

Notation "a + b" := (nadd a b) : num_scope.
Notation "a - b" := (nsub a b) : num_scope.
Notation "a * b" := (nmul a b) : num_scope.
Notation "a / b" := (ndiv a b) : num_scope.
Notation "- a" := (nneg a) : num_scope.

Definition finite (a : num) : Prop := exists r, a = Fin r.

(** ** The quaternion primitive *)

Record Quaternion : Type := mkQuaternion { qw : num; qx : num; qy : num; qz : num }.

Module QuaternionLib.

(** [Quaternion.ONE] *)
Definition ONE : Quaternion := mkQuaternion 1 0 0 0.

(** [this.mul(other)]: the Hamilton product. *)
Definition mul (a b : Quaternion) : Quaternion :=
  let w1 := qw a in let x1 := qx a in let y1 := qy a in let z1 := qz a in
  let w2 := qw b in let x2 := qx b in let y2 := qy b in let z2 := qz b in
  mkQuaternion
    (w1 * w2 - x1 * x2 - y1 * y2 - z1 * z2)%num
    (w1 * x2 + x1 * w2 + y1 * z2 - z1 * y2)%num
    (w1 * y2 + y1 * w2 + z1 * x2 - x1 * z2)%num
    (w1 * z2 + z1 * w2 + x1 * y2 - y1 * x2)%num.

(** [Quaternion.fromEuler(phi, theta, psi, 'XYZ')]: the product of the
    rotations about X by [phi], about Y by [theta] and about Z by
    [psi], in closed form. *)
Definition fromEuler (phi theta psi : num) : Quaternion :=
  let hx := (phi * Fin (1 / 2))%num in
  let hy := (theta * Fin (1 / 2))%num in
  let hz := (psi * Fin (1 / 2))%num in
  let cX := ncos hx in let cY := ncos hy in let cZ := ncos hz in
  let sX := nsin hx in let sY := nsin hy in let sZ := nsin hz in
  mkQuaternion
    (cX * cY * cZ - sX * sY * sZ)%num
    (sX * cY * cZ + sY * sZ * cX)%num
    (sY * cX * cZ - sX * sZ * cY)%num
    (sX * sY * cZ + sZ * cX * cY)%num.

(** The squared norm, and what it is to be a unit quaternion. *)
Definition norm2 (a : Quaternion) : num :=
  (qw a * qw a + qx a * qx a + qy a * qy a + qz a * qz a)%num.

Definition unit (a : Quaternion) : Prop := norm2 a = Fin 1.

Definition finiteQ (a : Quaternion) : Prop :=
  finite (qw a) /\ finite (qx a) /\ finite (qy a) /\ finite (qz a).

(** *** A reference instance of [fromVectors]

    The controller is verified for an arbitrary [fromVectors] (the
    parameter of section [Controller]).  [shortestArc] is the
    shortest-arc rotation that the specification asks of the primitive
    ("the minimal rotation taking one vector to the other"), computed
    the way Quaternion.js does: both vectors are normalised, parallel
    vectors give [ONE], opposite vectors a half turn about an axis
    orthogonal to the first, and otherwise the result is the normalised
    quaternion (1 + u.v, u x v).  The library compares the dot product
    with a small tolerance; the tests here are exact.  It instantiates
    the parameter in the examples at the end. *)

Definition nabs : num -> num := lift1 Rabs.

(** A quaternion scaled to norm 1. *)
Definition newNormalized (w x y z : num) : Quaternion :=
  let il := (1 / nsqrt (w * w + x * x + y * y + z * z))%num in
  mkQuaternion (w * il)%num (x * il)%num (y * il)%num (z * il)%num.

(** A vector divided by its length, when the length is positive. *)
Definition normalized (u : num * num * num) : num * num * num :=
  let '(ux, uy, uz) := u in
  let uLen := nsqrt (ux * ux + uy * uy + uz * uz)%num in
  if nlt (Fin 0) uLen
  then ((ux / uLen)%num, (uy / uLen)%num, (uz / uLen)%num)
  else u.

Definition shortestArc (u v : num * num * num) : Quaternion :=
  let '(ux, uy, uz) := normalized u in
  let '(vx, vy, vz) := normalized v in
  let dot := (ux * vx + uy * vy + uz * vz)%num in
  if nle (Fin 1) dot then ONE
  else if nle (1 + dot)%num (Fin 0) then
    if nlt (nabs uz) (nabs ux)
    then newNormalized (Fin 0) (- uy)%num ux (Fin 0)
    else newNormalized (Fin 0) (Fin 0) (- uz)%num uy
  else
    let wx := (uy * vz - uz * vy)%num in
    let wy := (uz * vx - ux * vz)%num in
    let wz := (ux * vy - uy * vx)%num in
    newNormalized (1 + dot)%num wx wy wz.

End QuaternionLib.

Import QuaternionLib.

(** ** The data of the controller *)

Definition vec3 : Type := (num * num * num)%type.

(** The rectangle returned by [getBoundingClientRect()], with the
    attributes the code reads. *)
Record Box : Type := mkBox {
  box_x : num; box_y : num; box_width : num; box_height : num;
  box_left : num; box_right : num; box_top : num; box_bottom : num }.

(** [#opts] without [scene] (the element) and [onDraw] (see [drawn]).
    [rotationMethod] is [None] when the option is [undefined]. *)
Record Opts : Type := mkOpts {
  rotationMethod : option string;
  clampElevation : bool;
  border : num;
  ballsize : num }.

(** The argument of the constructor: [None] is an absent option. *)
Record Options : Type := mkOptions {
  o_rotationMethod : option string;
  o_clampElevation : option bool;
  o_border : option num;
  o_ballsize : option num;
  o_q : option Quaternion }.

(** [#drag]; [startVector] is [None] when [#project] returned [undefined]. *)
Record Drag : Type := mkDrag {
  startVector : option vec3;
  startPosition : num * num;
  box : Box }.

(** The private fields of a [Trackball], followed by two fields of the
    environment: [frameRequested], whether a callback handed to
    [requestAnimationFrame] is waiting, and [drawn], the arguments of the
    calls of [onDraw], latest first. *)
Record Trackball : Type := mkTrackball {
  q0 : Quaternion;
  q : Quaternion;
  azimuth : option num;
  elevation : option num;
  azimuth_start : option num;
  elevation_start : option num;
  drag : option Drag;
  isUpdatePending : bool;
  lastMousePosition : option (num * num);
  opts : Opts;
  frameRequested : bool;
  drawn : list Quaternion }.

Definition set_q0 (t : Trackball) (v : Quaternion) : Trackball :=
  mkTrackball v (q t) (azimuth t) (elevation t) (azimuth_start t)
    (elevation_start t) (drag t) (isUpdatePending t) (lastMousePosition t)
    (opts t) (frameRequested t) (drawn t).

Definition set_q (t : Trackball) (v : Quaternion) : Trackball :=
  mkTrackball (q0 t) v (azimuth t) (elevation t) (azimuth_start t)
    (elevation_start t) (drag t) (isUpdatePending t) (lastMousePosition t)
    (opts t) (frameRequested t) (drawn t).

Definition set_azimuth (t : Trackball) (v : option num) : Trackball :=
  mkTrackball (q0 t) (q t) v (elevation t) (azimuth_start t)
    (elevation_start t) (drag t) (isUpdatePending t) (lastMousePosition t)
    (opts t) (frameRequested t) (drawn t).

Definition set_elevation (t : Trackball) (v : option num) : Trackball :=
  mkTrackball (q0 t) (q t) (azimuth t) v (azimuth_start t)
    (elevation_start t) (drag t) (isUpdatePending t) (lastMousePosition t)
    (opts t) (frameRequested t) (drawn t).

Definition set_azimuth_start (t : Trackball) (v : option num) : Trackball :=
  mkTrackball (q0 t) (q t) (azimuth t) (elevation t) v
    (elevation_start t) (drag t) (isUpdatePending t) (lastMousePosition t)
    (opts t) (frameRequested t) (drawn t).

Definition set_elevation_start (t : Trackball) (v : option num) : Trackball :=
  mkTrackball (q0 t) (q t) (azimuth t) (elevation t) (azimuth_start t)
    v (drag t) (isUpdatePending t) (lastMousePosition t)
    (opts t) (frameRequested t) (drawn t).

Definition set_drag (t : Trackball) (v : option Drag) : Trackball :=
  mkTrackball (q0 t) (q t) (azimuth t) (elevation t) (azimuth_start t)
    (elevation_start t) v (isUpdatePending t) (lastMousePosition t)
    (opts t) (frameRequested t) (drawn t).

Definition set_isUpdatePending (t : Trackball) (v : bool) : Trackball :=
  mkTrackball (q0 t) (q t) (azimuth t) (elevation t) (azimuth_start t)
    (elevation_start t) (drag t) v (lastMousePosition t)
    (opts t) (frameRequested t) (drawn t).

Definition set_lastMousePosition (t : Trackball) (v : option (num * num)) : Trackball :=
  mkTrackball (q0 t) (q t) (azimuth t) (elevation t) (azimuth_start t)
    (elevation_start t) (drag t) (isUpdatePending t) v
    (opts t) (frameRequested t) (drawn t).

Definition set_frameRequested (t : Trackball) (v : bool) : Trackball :=
  mkTrackball (q0 t) (q t) (azimuth t) (elevation t) (azimuth_start t)
    (elevation_start t) (drag t) (isUpdatePending t) (lastMousePosition t)
    (opts t) v (drawn t).

Definition set_drawn (t : Trackball) (v : list Quaternion) : Trackball :=
  mkTrackball (q0 t) (q t) (azimuth t) (elevation t) (azimuth_start t)
    (elevation_start t) (drag t) (isUpdatePending t) (lastMousePosition t)
    (opts t) (frameRequested t) v.

(** [m === s] for the option [rotationMethod]: [undefined] equals no string. *)
Definition is_method (m : option string) (s : string) : bool :=
  match m with
  | Some m' => String.eqb m' s
  | None => false
  end.

(** [list.includes(m)] *)
Definition includes (l : list string) (m : option string) : bool :=
  existsb (is_method m) l.

(** An absent option takes its default. *)
Definition default {A : Type} (d : A) (v : option A) : A :=
  match v with
  | Some a => a
  | None => d
  end.

Definition set_border (o : Opts) (v : num) : Opts :=
  mkOpts (rotationMethod o) (clampElevation o) v (ballsize o).

(** What the listeners of [#initEventListeners] receive, and the two
    public methods.  A touch event with exactly one touch calls the
    handler of the corresponding mouse event; [AnimationFrame] is the
    browser running the callbacks given to [requestAnimationFrame]. *)
Inductive Event : Type :=
| MouseDown (clientX clientY : num) (rect : Box)
| MouseMove (clientX clientY : num)
| MouseUp
| AnimationFrame
| Rotate (quaternion : Quaternion)
| Reset.

(** Reduction of the arithmetic of [num] on finite values. *)
Ltac num_simpl :=
  cbn [nadd nsub nmul nneg lift1 lift2 ncos nsin nmin nmax Math_PI toNumber].

(** ** The class [Trackball] *)

Section Controller.

(** [Quaternion.fromVectors(u, v)] on two arrays of three numbers. *)
Variable fromVectors : vec3 -> vec3 -> Quaternion.

(** [#draw] *)
Definition draw (t : Trackball) : Trackball :=
  set_drawn t (q t :: drawn t).

(** The normalised coordinates [px] and [py] of [#project]. *)
Definition project_px (t : Trackball) (x : num) (b : Box) : num :=
  let maxDim := (nmax (box_width b) (box_height b) - 1)%num in
  let ballsize := ballsize (opts t) in
  ((2 * (x - box_x b) - box_width b - 1) / maxDim / ballsize)%num.

Definition project_py (t : Trackball) (y : num) (b : Box) : num :=
  let maxDim := (nmax (box_width b) (box_height b) - 1)%num in
  let ballsize := ballsize (opts t) in
  (- (2 * (y - box_y b) - box_height b - 1) / maxDim / ballsize)%num.

(** [#project]; [None] is the [undefined] returned when no branch
    returns. *)
Definition project (t : Trackball) (x y : num) (b : Box) : option vec3 :=
  let border := border (opts t) in
  let ra := (1 + border)%num in
  let a := (border * (1 + border / 2))%num in
  let ri := (2 / (ra + 1 / ra))%num in
  let px := project_px t x b in
  let py := project_py t y b in
  let dist2 := ((px * px + py * py) * (ra * ra))%num in
  let dist := nsqrt dist2 in
  if includes ["sphere"; "shoemake"; "rounded_arcball"]%string
       (rotationMethod (opts t)) then
    if nlt dist ri then
      Some (px, py, nsqrt (1 - dist2))
    else if nlt dist ra then
      let dr := (ra - dist)%num in
      Some (px, py, (a - nsqrt ((a + dr) * (a - dr)))%num)
    else Some (px, py, Fin 0)
  else if is_method (rotationMethod (opts t)) "bell" then
    if nlt dist (1 / nsqrt 2) then
      Some (px, py, nsqrt (1 - dist2))
    else Some (px, py, (1 / (2 * dist))%num)
  else None.

(** [constructor]; the listeners are the constructors of [Event]. *)
Definition constructor (o : Options) : Trackball :=
  let q := default ONE (o_q o) in
  let opts :=
    mkOpts (o_rotationMethod o)
      (default false (o_clampElevation o))
      (default (Fin 0) (o_border o))
      (default (Fin (3 / 4)) (o_ballsize o)) in
  let opts :=
    if is_method (rotationMethod opts) "rounded_arcball"
    then set_border opts (Fin (1 / 2))
    else opts in
  draw (mkTrackball q q None None (Some (Fin 0)) (Some (Fin 0)) None false
          None opts false []).

(** [rotate] *)
Definition rotate (t : Trackball) (quaternion : Quaternion) : Trackball :=
  match drag t with
  | None =>
      let v := mul (q0 t) quaternion in
      draw (set_q (set_q0 t v) v)
  | Some _ => t
  end.

(** [reset] *)
Definition reset (t : Trackball) : Trackball :=
  let t := set_drag t None in
  let one := mkQuaternion 1 0 0 0 in
  let t := set_q (set_q0 t one) one in
  let t := set_azimuth (set_azimuth_start t (Some (Fin 0))) (Some (Fin 0)) in
  let t := set_elevation (set_elevation_start t (Some (Fin 0))) (Some (Fin 0)) in
  draw t.

(** [#handleMouseDown] *)
Definition handleMouseDown (t : Trackball) (clientX clientY : num)
    (rect : Box) : Trackball :=
  draw (set_drag t
          (Some (mkDrag (project t clientX clientY rect)
                   (clientX, clientY) rect))).

(** [#handleMouseMove] *)
Definition handleMouseMove (t : Trackball) (clientX clientY : num) : Trackball :=
  match drag t with
  | None => t
  | Some _ =>
      let t := set_lastMousePosition t (Some (clientX, clientY)) in
      if negb (isUpdatePending t)
      then set_frameRequested (set_isUpdatePending t true) true
      else t
  end.

(** [#updateAzEl]; [d] is [this.#drag]. *)
Definition updateAzEl (t : Trackball) (d : Drag) (deltaX deltaY : num) : Trackball :=
  let scaleX := (Math_PI / nmin (box_width (box d)) (box_height (box d)))%num in
  let scaleY := scaleX in
  let t := set_azimuth t
             (Some (toNumber (azimuth_start t) + deltaX * scaleX)%num) in
  let t :=
    if clampElevation (opts t) then
      set_elevation t
        (Some (nmax (- Math_PI / 2 + Fin (1 / 100))%num
                 (nmin (Math_PI / 2 - Fin (1 / 100))%num
                    (toNumber (elevation_start t) + deltaY * scaleY)%num)))
    else
      set_elevation t
        (Some (toNumber (elevation_start t) + deltaY * scaleY)%num) in
  set_q t (fromEuler (toNumber (elevation t)) (toNumber (azimuth t)) (Fin 0)).

(** The quaternion [dq] built by [#updateTrackball], with the [norm] it
    divides by. *)
Definition trackball_norm (minDim deltaX deltaY : num) : num :=
  let k0 := (deltaY / minDim)%num in
  let k1 := (deltaX / minDim)%num in
  let k2 := Fin 0 in
  nsqrt (k0 * k0 + k1 * k1 + k2 * k2)%num.

Definition trackball_dq (minDim deltaX deltaY : num) : Quaternion :=
  let k0 := (deltaY / minDim)%num in
  let k1 := (deltaX / minDim)%num in
  let k2 := Fin 0 in
  let norm := trackball_norm minDim deltaX deltaY in
  let theta := (norm * Math_PI / 2)%num in
  let cosTheta := ncos theta in
  let sinThetaNormalized := (nsin theta / norm)%num in
  mkQuaternion cosTheta
    (k0 * sinThetaNormalized)%num
    (k1 * sinThetaNormalized)%num
    (k2 * sinThetaNormalized)%num.

(** [#updateTrackball]; [d] is [this.#drag]. *)
Definition updateTrackball (t : Trackball) (d : Drag)
    (deltaX deltaY clientX clientY : num) : Trackball :=
  let minDim := nmin (box_height (box d)) (box_width (box d)) in
  let dq := trackball_dq minDim deltaX deltaY in
  let t := set_q t (mul dq (q0 t)) in
  if is_method (rotationMethod (opts t)) "trackball" then
    let t := set_q0 t (q t) in
    set_drag t (Some (mkDrag (startVector d) (clientX, clientY) (box d)))
  else t.

(** [#updateSphericalMethods]; [d] is [this.#drag].  [None]: the
    TypeError of [Quaternion.fromVectors] reading a component of
    [undefined]. *)
Definition updateSphericalMethods (t : Trackball) (d : Drag)
    (clientX clientY : num) : option Trackball :=
  let currentVector := project t clientX clientY (box d) in
  match startVector d, currentVector with
  | Some u, Some v =>
      let dq := fromVectors u v in
      if is_method (rotationMethod (opts t)) "sphere" then
        let t := set_q t (mul dq (q0 t)) in
        let t := set_q0 t (q t) in
        Some (set_drag t (Some (mkDrag (Some v) (clientX, clientY) (box d))))
      else if includes ["shoemake"; "rounded_arcball"; "bell"]%string
                (rotationMethod (opts t)) then
        Some (set_q t (mul dq (mul dq (q0 t))))
      else Some t
  | _, _ => None
  end.

(** [#updateRotation]; [None]: a TypeError (no drag, or the one of
    [updateSphericalMethods]). *)
Definition updateRotation (t : Trackball) (clientX clientY : num) : option Trackball :=
  match drag t with
  | None => None
  | Some d =>
      let deltaX := (clientX - fst (startPosition d))%num in
      let deltaY := (clientY - snd (startPosition d))%num in
      if neqb deltaX (Fin 0) && neqb deltaY (Fin 0) then Some t
      else
        let method := rotationMethod (opts t) in
        if is_method method "azel" then
          Some (updateAzEl t d deltaX deltaY)
        else if is_method method "trackball"
                || is_method method "trackball_no_precession" then
          Some (updateTrackball t d deltaX deltaY clientX clientY)
        else updateSphericalMethods t d clientX clientY
  end.

(** [#isInBounds] *)
Definition isInBounds (x y : num) (b : Box) : bool :=
  nge x (box_left b) && nle x (box_right b) &&
  nge y (box_top b) && nle y (box_bottom b).

(** [#update], the callback of [requestAnimationFrame].  When
    [#updateRotation] throws, the rest of the callback does not run. *)
Definition update (t : Trackball) : Trackball :=
  match lastMousePosition t, drag t with
  | Some (clientX, clientY), Some d =>
      if isInBounds clientX clientY (box d) then
        match updateRotation t clientX clientY with
        | Some t' => set_isUpdatePending (draw t') false
        | None => t
        end
      else set_isUpdatePending t false
  | _, _ => set_isUpdatePending t false
  end.

(** [#handleMouseUp] *)
Definition handleMouseUp (t : Trackball) : Trackball :=
  match drag t with
  | None => t
  | Some _ =>
      let t := set_drag t None in
      let t := set_q0 t (q t) in
      let t := set_lastMousePosition t None in
      let t := set_azimuth_start t (azimuth t) in
      let t := set_elevation_start t (elevation t) in
      draw t
  end.

(** One event. *)
Definition step (t : Trackball) (e : Event) : Trackball :=
  match e with
  | MouseDown clientX clientY rect => handleMouseDown t clientX clientY rect
  | MouseMove clientX clientY => handleMouseMove t clientX clientY
  | MouseUp => handleMouseUp t
  | AnimationFrame =>
      if frameRequested t then update (set_frameRequested t false) else t
  | Rotate quaternion => rotate t quaternion
  | Reset => reset t
  end.

(** A sequence of events, from the left. *)
Definition run (t : Trackball) (evs : list Event) : Trackball :=
  fold_left step evs t.

(** ** Predicates of the statements *)

(** No drag is active only with [#q0] and [#q] the same quaternion. *)
Definition idle_inv (t : Trackball) : Prop :=
  drag t = None -> q0 t = q t.

(** The real number [norm] of [#updateTrackball] for finite deltas and
    a finite [minDim]. *)
Definition rnorm (m dx dy : R) : R :=
  sqrt (dy / m * (dy / m) + dx / m * (dx / m) + 0 * 0).

(** The state in which [#update] runs after a move to [(x, y)] was
    recorded and its frame requested. *)
Definition recorded (t : Trackball) (x y : num) : Trackball :=
  set_frameRequested
    (set_isUpdatePending (set_lastMousePosition t (Some (x, y))) true) false.

(** The events of a list of move samples, each applied in a frame of its
    own. *)
Definition samples (l : list (num * num)) : list Event :=
  flat_map (fun p => [MouseMove (fst p) (snd p); AnimationFrame]) l.

(** A 400 x 400 box at the origin. *)
Definition box400 : Box :=
  mkBox (Fin 0) (Fin 0) (Fin 400) (Fin 400) (Fin 0) (Fin 400) (Fin 0) (Fin 400).

(** [new Trackball({ scene, onDraw })], the Quick Start of the README: no
    [rotationMethod]. *)
Definition quick_start : Options := mkOptions None None None None None.

(** [new Trackball({ scene, rotationMethod: m, onDraw })] *)
Definition with_method (m : string) : Options :=
  mkOptions (Some m) None None None None.

(** The seven documented rotation methods. *)
Definition methods : list string :=
  ["azel"; "trackball"; "trackball_no_precession"; "shoemake"; "sphere";
   "bell"; "rounded_arcball"]%string.

(** ** Predicates of the further statements *)

(** The events of a list of moves, with no frame in between. *)
Definition moves (l : list (num * num)) : list Event :=
  map (fun p => MouseMove (fst p) (snd p)) l.

(** The events that neither start a drag nor call a public method. *)
Definition pointer_noise (e : Event) : bool :=
  match e with
  | MouseMove _ _ | MouseUp | AnimationFrame => true
  | MouseDown _ _ _ | Rotate _ | Reset => false
  end.

(** The events of the pointer and of the frame scheduler. *)
Definition pointer_event (e : Event) : bool :=
  match e with
  | MouseDown _ _ _ | MouseMove _ _ | MouseUp | AnimationFrame => true
  | Rotate _ | Reset => false
  end.

(** The frame callback threw: [#isUpdatePending] is still set and no
    callback is waiting. *)
Definition stuck (t : Trackball) : Prop :=
  isUpdatePending t = true /\ frameRequested t = false.

(** The last quaternion handed to [onDraw] is the current orientation. *)
Definition drawn_current (t : Trackball) : Prop :=
  hd_error (drawn t) = Some (q t).

(** A box whose smaller side, as [#updateTrackball] computes it, is
    finite and not zero. *)
Definition box_min_ok (b : Box) : Prop :=
  exists m : R, nmin (box_height b) (box_width b) = Fin m /\ m <> 0.

(** Events with finite coordinates, boxes with a nonzero smaller side,
    and unit quaternions for [rotate]. *)
Definition wf_event (e : Event) : Prop :=
  match e with
  | MouseDown x y b => finite x /\ finite y /\ box_min_ok b
  | MouseMove x y => finite x /\ finite y
  | Rotate quaternion => unit quaternion
  | MouseUp | AnimationFrame | Reset => True
  end.

(** Unit orientations, and finite data in the drag session and in the
    recorded pointer position. *)
Definition unit_inv (t : Trackball) : Prop :=
  unit (q t) /\ unit (q0 t) /\
  (forall d, drag t = Some d ->
             finite (fst (startPosition d)) /\ finite (snd (startPosition d))
             /\ box_min_ok (box d)) /\
  (forall p, lastMousePosition t = Some p -> finite (fst p) /\ finite (snd p)).

(** * Properties *)

(** ** Arithmetic of [num] on finite values *)

Lemma ndiv_fin (a b : R) : b <> 0 -> ndiv (Fin a) (Fin b) = Fin (a / b).
Proof.
  intros H. unfold ndiv. destruct (Req_dec_T b 0); [contradiction|reflexivity].
Qed.

Lemma nsqrt_fin (a : R) : 0 <= a -> nsqrt (Fin a) = Fin (sqrt a).
Proof.
  intros H. unfold nsqrt. destruct (Rlt_dec a 0); [lra|reflexivity].
Qed.

Lemma nlt_true (a b : R) : a < b -> nlt (Fin a) (Fin b) = true.
Proof.
  intros H. unfold nlt. destruct (Rlt_dec a b); [reflexivity|contradiction].
Qed.

Lemma nlt_false (a b : R) : b <= a -> nlt (Fin a) (Fin b) = false.
Proof.
  intros H. unfold nlt. destruct (Rlt_dec a b); [lra|reflexivity].
Qed.

Lemma nle_true (a b : R) : a <= b -> nle (Fin a) (Fin b) = true.
Proof.
  intros H. unfold nle. destruct (Rle_dec a b); [reflexivity|contradiction].
Qed.

Lemma nle_false (a b : R) : b < a -> nle (Fin a) (Fin b) = false.
Proof.
  intros H. unfold nle. destruct (Rle_dec a b); [lra|reflexivity].
Qed.

Lemma neqb_true (a b : R) : a = b -> neqb (Fin a) (Fin b) = true.
Proof.
  intros H. unfold neqb. destruct (Req_dec_T a b); [reflexivity|contradiction].
Qed.

Lemma neqb_false (a b : R) : a <> b -> neqb (Fin a) (Fin b) = false.
Proof.
  intros H. unfold neqb. destruct (Req_dec_T a b); [contradiction|reflexivity].
Qed.

(** ** Sequences of events *)

Lemma run_app (t : Trackball) (l1 l2 : list Event) :
  run t (l1 ++ l2) = run (run t l1) l2.
Proof. apply fold_left_app. Qed.

Lemma updateRotation_drag (t t' : Trackball) (x y : num) :
  updateRotation t x y = Some t' -> drag t <> None -> drag t' <> None.
Proof.
  unfold updateRotation.
  destruct (drag t) as [d|] eqn:Hd; [|discriminate].
  intros H _.
  destruct (neqb _ _ && neqb _ _).
  - inversion H; subst. rewrite Hd. discriminate.
  - destruct (is_method _ "azel").
    + inversion H; subst. unfold updateAzEl.
      destruct (clampElevation _); simpl; rewrite Hd; discriminate.
    + destruct (_ || _).
      * inversion H; subst. unfold updateTrackball. simpl.
        destruct (is_method _ "trackball"); simpl; [|rewrite Hd]; discriminate.
      * unfold updateSphericalMethods in H.
        destruct (startVector d); [|discriminate].
        destruct (project _ _ _); [|discriminate].
        destruct (is_method _ "sphere").
        -- inversion H; subst. simpl. discriminate.
        -- destruct (includes _ _); inversion H; subst; simpl; rewrite Hd;
             discriminate.
Qed.

Lemma update_idle (t : Trackball) :
  drag t = None -> update t = set_isUpdatePending t false.
Proof.
  intros H. unfold update. rewrite H.
  destruct (lastMousePosition t) as [[? ?]|]; reflexivity.
Qed.

Lemma update_drag (t : Trackball) :
  drag t <> None -> drag (update t) <> None.
Proof.
  intros H. unfold update.
  destruct (lastMousePosition t) as [[cx cy]|]; [|exact H].
  destruct (drag t) as [d|] eqn:Hd; [|simpl; rewrite Hd; exact H].
  destruct (isInBounds _ _ _); [|simpl; rewrite Hd; exact H].
  destruct (updateRotation t cx cy) as [t'|] eqn:Hu.
  - simpl. eapply updateRotation_drag; [exact Hu|]. rewrite Hd. exact H.
  - rewrite Hd. exact H.
Qed.

Lemma step_idle_inv (t : Trackball) (e : Event) :
  idle_inv t -> idle_inv (step t e).
Proof.
  unfold idle_inv. intros Hinv.
  destruct e as [cx cy rect|cx cy| | |quat|]; simpl.
  - discriminate.
  - unfold handleMouseMove. destruct (drag t) eqn:Hd.
    + destruct (negb _); simpl; rewrite Hd; discriminate.
    + intros _. apply Hinv. reflexivity.
  - unfold handleMouseUp. destruct (drag t) eqn:Hd.
    + reflexivity.
    + intros _. apply Hinv. reflexivity.
  - destruct (frameRequested t) eqn:Hf; [|exact Hinv].
    destruct (drag t) eqn:Hd.
    + intros H. exfalso. revert H. apply update_drag. simpl. rewrite Hd.
      discriminate.
    + rewrite update_idle by exact Hd. simpl. intros _. apply Hinv.
      reflexivity.
  - unfold rotate. destruct (drag t) eqn:Hd.
    + rewrite Hd. discriminate.
    + reflexivity.
  - reflexivity.
Qed.

Lemma run_idle_inv (evs : list Event) (t : Trackball) :
  idle_inv t -> idle_inv (run t evs).
Proof.
  revert t. induction evs as [|e evs IH]; intros t Ht.
  - exact Ht.
  - simpl. apply IH. apply step_idle_inv. exact Ht.
Qed.

(** C2: after the constructor and any sequence of events, whenever no
    drag is active the committed orientation [#q0] and the current
    orientation [#q] are the same quaternion; and the end of a drag
    makes the committed orientation the current one. *)
Theorem idle_committed_is_current (o : Options) (evs : list Event) :
  (drag (run (constructor o) evs) = None ->
   q0 (run (constructor o) evs) = q (run (constructor o) evs)) /\
  (forall t : Trackball,
      drag t <> None ->
      drag (handleMouseUp t) = None /\
      q0 (handleMouseUp t) = q t /\
      q (handleMouseUp t) = q t).
Proof.
  split.
  - apply run_idle_inv. intros _. reflexivity.
  - intros t H. unfold handleMouseUp.
    destruct (drag t); [|contradiction]. repeat split.
Qed.

(** ** The public methods *)

(** C6: [rotate(q)] with no drag active sets the committed orientation
    to [committed.mul(q)], makes the current one equal to it and calls
    the draw callback with it; with a drag active it changes nothing at
    all. *)
Theorem rotate_idle_or_dragging (t : Trackball) (quaternion : Quaternion) :
  (drag t = None ->
     q0 (rotate t quaternion) = mul (q0 t) quaternion /\
     q (rotate t quaternion) = mul (q0 t) quaternion /\
     drawn (rotate t quaternion) = mul (q0 t) quaternion :: drawn t) /\
  (drag t <> None -> rotate t quaternion = t).
Proof.
  unfold rotate. split.
  - intros H. rewrite H. repeat split.
  - intros H. destruct (drag t); [reflexivity|contradiction].
Qed.

(** C9: after [reset()], whatever the state before, the committed and
    the current orientation are the identity quaternion, azimuth,
    elevation and their drag-start snapshots are 0, there is no drag
    session, and the draw callback has been called (with the
    identity). *)
Theorem reset_yields_identity (t : Trackball) :
  q0 (reset t) = mkQuaternion 1 0 0 0 /\
  q (reset t) = mkQuaternion 1 0 0 0 /\
  azimuth (reset t) = Some (Fin 0) /\
  elevation (reset t) = Some (Fin 0) /\
  azimuth_start (reset t) = Some (Fin 0) /\
  elevation_start (reset t) = Some (Fin 0) /\
  drag (reset t) = None /\
  drawn (reset t) = mkQuaternion 1 0 0 0 :: drawn t.
Proof. repeat split. Qed.

(** ** The configuration *)

Lemma updateRotation_opts (t t' : Trackball) (x y : num) :
  updateRotation t x y = Some t' -> opts t' = opts t.
Proof.
  unfold updateRotation.
  destruct (drag t) as [d|]; [|discriminate].
  destruct (neqb _ _ && neqb _ _); [intros H; inversion H; reflexivity|].
  destruct (is_method _ "azel").
  - intros H; inversion H; subst. unfold updateAzEl.
    destruct (clampElevation _); reflexivity.
  - destruct (_ || _).
    + intros H; inversion H; subst. unfold updateTrackball. simpl.
      destruct (is_method _ "trackball"); reflexivity.
    + unfold updateSphericalMethods.
      destruct (startVector d); [|discriminate].
      destruct (project _ _ _); [|discriminate].
      destruct (is_method _ "sphere"); [intros H; inversion H; reflexivity|].
      destruct (includes _ _); intros H; inversion H; reflexivity.
Qed.

Lemma update_opts (t : Trackball) : opts (update t) = opts t.
Proof.
  unfold update.
  destruct (lastMousePosition t) as [[cx cy]|]; [|reflexivity].
  destruct (drag t) as [d|]; [|reflexivity].
  destruct (isInBounds _ _ _); [|reflexivity].
  destruct (updateRotation t cx cy) as [t'|] eqn:Hu; [|reflexivity].
  simpl. eapply updateRotation_opts. exact Hu.
Qed.

Lemma step_opts (t : Trackball) (e : Event) : opts (step t e) = opts t.
Proof.
  destruct e as [cx cy rect|cx cy| | |quat|]; simpl.
  - reflexivity.
  - unfold handleMouseMove. destruct (drag t); [|reflexivity].
    destruct (negb _); reflexivity.
  - unfold handleMouseUp. destruct (drag t); reflexivity.
  - destruct (frameRequested t); [|reflexivity]. rewrite update_opts.
    reflexivity.
  - unfold rotate. destruct (drag t); reflexivity.
  - reflexivity.
Qed.

Lemma run_opts (evs : list Event) (t : Trackball) : opts (run t evs) = opts t.
Proof.
  revert t. induction evs as [|e evs IH]; intros t; [reflexivity|].
  simpl. rewrite IH. apply step_opts.
Qed.

Lemma project_opts (t t' : Trackball) (x y : num) (b : Box) :
  opts t = opts t' -> project t x y b = project t' x y b.
Proof.
  intros H. unfold project, project_px, project_py. rewrite H. reflexivity.
Qed.

(** C10: a controller constructed with method 'rounded_arcball' has
    border 0.5, whatever border was supplied; one constructed with any
    other method has the supplied border, 0 by default.  No event
    changes it afterwards, and [#project] reads this border: after any
    events it projects as it did right after construction. *)
Theorem border_fixed_at_construction (o : Options) (evs : list Event) :
  border (opts (run (constructor o) evs)) =
    (if is_method (o_rotationMethod o) "rounded_arcball"
     then Fin (1 / 2)
     else default (Fin 0) (o_border o)) /\
  (forall x y b,
      project (run (constructor o) evs) x y b = project (constructor o) x y b).
Proof.
  split.
  - rewrite run_opts. unfold constructor. simpl.
    destruct (is_method (o_rotationMethod o) "rounded_arcball"); reflexivity.
  - intros x y b. apply project_opts. apply run_opts.
Qed.

(** ** The ball projection *)

(** The two cases of [#project] with border 0: the sphere cap inside the
    unit disk, the plane outside. *)
Lemma project_cap_or_plane (t : Trackball) (x y : num) (b : Box) (px py : R) :
  includes ["sphere"; "shoemake"; "rounded_arcball"]%string
    (rotationMethod (opts t)) = true ->
  border (opts t) = Fin 0 ->
  project_px t x b = Fin px ->
  project_py t y b = Fin py ->
  exists z : R,
    project t x y b = Some (Fin px, Fin py, Fin z) /\
    (px * px + py * py < 1 -> 0 < z /\ px * px + py * py + z * z = 1) /\
    (1 <= px * px + py * py -> z = 0).
Proof.
  intros Hm Hb Hx Hy. unfold project. rewrite Hm, Hb, Hx, Hy.
  num_simpl.
  rewrite (ndiv_fin 1 (1 + 0)) by lra. num_simpl.
  replace (1 + 0 + 1 / (1 + 0)) with 2 by field.
  rewrite (ndiv_fin 2 2) by lra.
  replace (2 / 2) with 1 by field.
  replace ((px * px + py * py) * ((1 + 0) * (1 + 0))) with (px * px + py * py)
    by ring.
  set (d2 := px * px + py * py).
  assert (Hd2 : 0 <= d2) by (unfold d2; nra).
  rewrite (nsqrt_fin d2) by exact Hd2.
  destruct (Rlt_dec d2 1) as [Hin|Hout].
  - assert (Hs : sqrt d2 < 1).
    { rewrite <- sqrt_1. apply sqrt_lt_1; lra. }
    rewrite nlt_true by exact Hs.
    rewrite nsqrt_fin by lra.
    exists (sqrt (1 - d2)). split; [reflexivity|]. split.
    + intros _. split.
      * apply sqrt_lt_R0. lra.
      * rewrite sqrt_sqrt by lra. ring.
    + intros H. lra.
  - assert (Hs : 1 <= sqrt d2).
    { rewrite <- sqrt_1 at 1. apply sqrt_le_1; lra. }
    rewrite nlt_false by exact Hs.
    rewrite nlt_false by lra.
    exists 0. split; [reflexivity|]. split.
    + intros H. lra.
    + reflexivity.
Qed.

(** C5: for 'sphere', 'shoemake' and 'rounded_arcball', with border 0,
    a point whose normalised coordinates (px, py) lie strictly inside
    the unit disk projects to (px, py, z) with z > 0 and
    px^2 + py^2 + z^2 = 1, and any other point projects to z = 0. *)
Theorem project_border_zero (t : Trackball) (x y : num) (b : Box) (px py : R) :
  includes ["sphere"; "shoemake"; "rounded_arcball"]%string
    (rotationMethod (opts t)) = true ->
  border (opts t) = Fin 0 ->
  project_px t x b = Fin px ->
  project_py t y b = Fin py ->
  exists z : R,
    project t x y b = Some (Fin px, Fin py, Fin z) /\
    (px * px + py * py < 1 -> 0 < z /\ px * px + py * py + z * z = 1) /\
    (1 <= px * px + py * py -> z = 0).
Proof. exact (project_cap_or_plane t x y b px py). Qed.

(** ** The quaternion of [#updateTrackball] *)

Lemma rnorm_pos (m dx dy : R) :
  m <> 0 -> ~ (dx = 0 /\ dy = 0) -> 0 < rnorm m dx dy.
Proof.
  intros Hm Hd. unfold rnorm. apply sqrt_lt_R0.
  assert (Hmm : 0 < m * m) by nra.
  assert (Hs : 0 < dy * dy + dx * dx).
  { destruct (Req_dec_T dx 0) as [Hx|Hx].
    - destruct (Req_dec_T dy 0) as [Hy|Hy]; [exfalso; auto|nra].
    - nra. }
  replace (dy / m * (dy / m) + dx / m * (dx / m) + 0 * 0)
    with ((dy * dy + dx * dx) / (m * m)) by (field; exact Hm).
  apply Rdiv_lt_0_compat; assumption.
Qed.

Lemma rnorm_sqr (m dx dy : R) :
  rnorm m dx dy * rnorm m dx dy = dy / m * (dy / m) + dx / m * (dx / m).
Proof.
  unfold rnorm. rewrite sqrt_sqrt.
  - ring.
  - assert (H1 := Rle_0_sqr (dy / m)). assert (H2 := Rle_0_sqr (dx / m)).
    unfold Rsqr in *. lra.
Qed.

Lemma rnorm_opp (m dx dy : R) : rnorm m (- dx) (- dy) = rnorm m dx dy.
Proof. unfold rnorm. f_equal. unfold Rdiv. ring. Qed.

Lemma trackball_norm_fin (m dx dy : R) :
  m <> 0 -> trackball_norm (Fin m) (Fin dx) (Fin dy) = Fin (rnorm m dx dy).
Proof.
  intros Hm. unfold trackball_norm, rnorm.
  rewrite !ndiv_fin by exact Hm. num_simpl.
  apply nsqrt_fin.
  assert (H1 := Rle_0_sqr (dy / m)). assert (H2 := Rle_0_sqr (dx / m)).
  unfold Rsqr in *. lra.
Qed.

Lemma trackball_dq_fin (m dx dy : R) :
  m <> 0 -> ~ (dx = 0 /\ dy = 0) ->
  trackball_dq (Fin m) (Fin dx) (Fin dy) =
    let n := rnorm m dx dy in
    let s := sin (n * PI / 2) / n in
    mkQuaternion (Fin (cos (n * PI / 2))) (Fin (dy / m * s))
      (Fin (dx / m * s)) (Fin (0 * s)).
Proof.
  intros Hm Hd. unfold trackball_dq.
  rewrite trackball_norm_fin by exact Hm.
  assert (Hn := rnorm_pos m dx dy Hm Hd).
  rewrite !ndiv_fin by exact Hm. num_simpl.
  rewrite (ndiv_fin _ 2) by lra. num_simpl.
  rewrite ndiv_fin by lra. num_simpl. reflexivity.
Qed.

Lemma trackball_dq_unit (m dx dy : R) :
  m <> 0 -> ~ (dx = 0 /\ dy = 0) ->
  unit (trackball_dq (Fin m) (Fin dx) (Fin dy)).
Proof.
  intros Hm Hd. unfold unit, norm2.
  rewrite (trackball_dq_fin m dx dy) by assumption.
  assert (Hn := rnorm_pos m dx dy Hm Hd).
  assert (Hq := rnorm_sqr m dx dy).
  set (n := rnorm m dx dy) in *.
  cbv zeta. cbn [qw qx qy qz]. num_simpl.
  assert (Hsc := sin2_cos2 (n * PI / 2)). unfold Rsqr in Hsc.
  set (c := cos (n * PI / 2)) in *. set (s := sin (n * PI / 2)) in *.
  f_equal.
  transitivity
    (c * c + (dy / m * (dy / m) + dx / m * (dx / m)) * (s / n * (s / n))).
  - unfold Rdiv. ring.
  - rewrite <- Hq.
    replace (n * n * (s / n * (s / n))) with (s * s) by (field; lra).
    lra.
Qed.

(** The quaternion of the opposite deltas is the inverse. *)
Lemma trackball_dq_inverse (m dx dy : R) :
  m <> 0 -> ~ (dx = 0 /\ dy = 0) ->
  mul (trackball_dq (Fin m) (Fin (- dx)) (Fin (- dy)))
      (trackball_dq (Fin m) (Fin dx) (Fin dy)) = ONE.
Proof.
  intros Hm Hd.
  assert (Hd' : ~ (- dx = 0 /\ - dy = 0))
    by (intros [H1 H2]; apply Hd; split; lra).
  rewrite (trackball_dq_fin m dx dy) by assumption.
  rewrite (trackball_dq_fin m (- dx) (- dy)) by assumption.
  rewrite rnorm_opp.
  assert (Hn := rnorm_pos m dx dy Hm Hd).
  assert (Hq := rnorm_sqr m dx dy).
  set (n := rnorm m dx dy) in *.
  cbv zeta. unfold mul, ONE. cbn [qw qx qy qz]. num_simpl.
  assert (Hsc := sin2_cos2 (n * PI / 2)). unfold Rsqr in Hsc.
  set (c := cos (n * PI / 2)) in *. set (s := sin (n * PI / 2)) in *.
  f_equal; f_equal.
  - transitivity
      (c * c + (dy / m * (dy / m) + dx / m * (dx / m)) * (s / n * (s / n))).
    + unfold Rdiv. ring.
    + rewrite <- Hq.
      replace (n * n * (s / n * (s / n))) with (s * s) by (field; lra).
      lra.
  - unfold Rdiv. ring.
  - unfold Rdiv. ring.
  - unfold Rdiv. ring.
Qed.

(** ** Finite quaternions *)

Lemma finiteQ_mul (a b : Quaternion) :
  finiteQ a -> finiteQ b -> finiteQ (mul a b).
Proof.
  intros (Ha1 & Ha2 & Ha3 & Ha4) (Hb1 & Hb2 & Hb3 & Hb4).
  destruct a as [a1 a2 a3 a4], b as [b1 b2 b3 b4]. simpl in *.
  destruct Ha1 as [? ->], Ha2 as [? ->], Ha3 as [? ->], Ha4 as [? ->].
  destruct Hb1 as [? ->], Hb2 as [? ->], Hb3 as [? ->], Hb4 as [? ->].
  unfold mul, finiteQ, finite. simpl. repeat split; eexists; reflexivity.
Qed.

Lemma is_method_eq (m : option string) (s : string) :
  is_method m s = true -> m = Some s.
Proof.
  destruct m as [m'|]; simpl; [|discriminate].
  intros H. apply String.eqb_eq in H. subst. reflexivity.
Qed.

(** ** Divisions *)

(** C8: a sample with zero deltas returns before any method is
    dispatched and leaves the state as it is; for the two trackball
    methods, with a box whose smaller side is finite and not zero and a
    finite committed orientation, a sample with a nonzero delta divides
    by a [norm] that is positive and leaves a finite orientation (no
    NaN); for 'bell', with finite normalised coordinates and border, the
    far branch is taken only when dist >= 1/sqrt 2, its divisor 2*dist
    is positive, and the projection is finite. *)
Theorem no_nan_from_degenerate_geometry :
  (forall (t : Trackball) (d : Drag) (x y : num),
      drag t = Some d ->
      neqb (x - fst (startPosition d)) (Fin 0)
        && neqb (y - snd (startPosition d)) (Fin 0) = true ->
      updateRotation t x y = Some t) /\
  (forall (t : Trackball) (d : Drag) (x y sx sy m : R),
      drag t = Some d ->
      startPosition d = (Fin sx, Fin sy) ->
      nmin (box_height (box d)) (box_width (box d)) = Fin m ->
      m <> 0 ->
      is_method (rotationMethod (opts t)) "trackball"
        || is_method (rotationMethod (opts t)) "trackball_no_precession"
        = true ->
      finiteQ (q0 t) ->
      ~ (x - sx = 0 /\ y - sy = 0) ->
      exists (n : R) (t' : Trackball),
        trackball_norm (Fin m) (Fin (x - sx)) (Fin (y - sy)) = Fin n /\
        0 < n /\
        updateRotation t (Fin x) (Fin y) = Some t' /\
        finiteQ (q t')) /\
  (forall (t : Trackball) (x y : num) (b : Box) (px py bd : R),
      is_method (rotationMethod (opts t)) "bell" = true ->
      border (opts t) = Fin bd ->
      project_px t x b = Fin px ->
      project_py t y b = Fin py ->
      exists z : R,
        project t x y b = Some (Fin px, Fin py, Fin z) /\
        (sqrt ((px * px + py * py) * ((1 + bd) * (1 + bd))) < 1 / sqrt 2 ->
         z = sqrt (1 - (px * px + py * py) * ((1 + bd) * (1 + bd)))) /\
        (1 / sqrt 2 <= sqrt ((px * px + py * py) * ((1 + bd) * (1 + bd))) ->
         0 < 2 * sqrt ((px * px + py * py) * ((1 + bd) * (1 + bd))) /\
         z = 1 / (2 * sqrt ((px * px + py * py) * ((1 + bd) * (1 + bd)))))).
Proof.
  split; [|split].
  - intros t d x y Hd Hz. unfold updateRotation. rewrite Hd, Hz. reflexivity.
  - intros t d x y sx sy m Hd Hs Hm Hm0 Hmeth Hq Hdelta.
    assert (Hn := rnorm_pos m (x - sx) (y - sy) Hm0 Hdelta).
    exists (rnorm m (x - sx) (y - sy)).
    unfold updateRotation. rewrite Hd, Hs. cbn [fst snd]. num_simpl.
    assert (Hz : neqb (Fin (x - sx)) (Fin 0) && neqb (Fin (y - sy)) (Fin 0)
                 = false).
    { destruct (Req_dec_T (x - sx) 0) as [Hx|Hx].
      - rewrite (neqb_true _ _ Hx). simpl. apply neqb_false. tauto.
      - rewrite (neqb_false _ _ Hx). reflexivity. }
    rewrite Hz.
    assert (Hazel : is_method (rotationMethod (opts t)) "azel" = false).
    { apply orb_true_iff in Hmeth.
      destruct Hmeth as [H|H]; apply is_method_eq in H; rewrite H;
        reflexivity. }
    rewrite Hazel, Hmeth. eexists. split; [|split; [|split]].
    + apply trackball_norm_fin. exact Hm0.
    + exact Hn.
    + reflexivity.
    + assert (Hf : finiteQ (mul (trackball_dq (Fin m) (Fin (x - sx))
                                   (Fin (y - sy))) (q0 t))).
      { apply finiteQ_mul; [|exact Hq].
        rewrite trackball_dq_fin by assumption.
        unfold finiteQ, finite. simpl. repeat split; eexists; reflexivity. }
      unfold updateTrackball. rewrite Hm. cbn [opts set_q].
      destruct (is_method (rotationMethod (opts t)) "trackball"); exact Hf.
  - intros t x y b px py bd Hmeth Hb Hx Hy.
    apply is_method_eq in Hmeth.
    unfold project. rewrite Hmeth, Hb, Hx, Hy.
    cbn [includes existsb is_method String.eqb Ascii.eqb Bool.eqb orb].
    num_simpl.
    set (d2 := (px * px + py * py) * ((1 + bd) * (1 + bd))).
    assert (Hd2 : 0 <= d2).
    { assert (H1 := Rle_0_sqr px). assert (H2 := Rle_0_sqr py).
      assert (H3 := Rle_0_sqr (1 + bd)). unfold Rsqr in *.
      unfold d2. apply Rmult_le_pos; lra. }
    assert (H2 : 0 < sqrt 2) by (apply sqrt_lt_R0; lra).
    rewrite (nsqrt_fin 2) by lra.
    rewrite (nsqrt_fin d2) by exact Hd2.
    rewrite (ndiv_fin 1 (sqrt 2)) by lra.
    assert (Hhalf : 1 / sqrt 2 * (1 / sqrt 2) = 1 / 2).
    { replace (1 / sqrt 2 * (1 / sqrt 2)) with (1 / (sqrt 2 * sqrt 2))
        by (field; lra).
      rewrite sqrt_sqrt by lra. reflexivity. }
    assert (Hpos : 0 < 1 / sqrt 2) by (apply Rdiv_lt_0_compat; lra).
    assert (Hsq : sqrt d2 * sqrt d2 = d2) by (apply sqrt_sqrt; exact Hd2).
    assert (Hs0 : 0 <= sqrt d2) by apply sqrt_pos.
    destruct (Rlt_dec (sqrt d2) (1 / sqrt 2)) as [Hnear|Hfar].
    + rewrite nlt_true by exact Hnear.
      assert (Hlt : d2 < 1 / 2).
  { rewrite <- Hsq, <- Hhalf. apply Rmult_le_0_lt_compat; lra. }
      rewrite nsqrt_fin by lra.
      eexists. split; [reflexivity|]. split; [reflexivity|].
      intros H. lra.
    + rewrite nlt_false by lra.
      rewrite ndiv_fin by lra.
      eexists. split; [reflexivity|]. split.
      * intros H. lra.
      * intros _. split; [lra|reflexivity].
Qed.

(** ** Move samples *)

Lemma move_frame (t : Trackball) (x y : num) :
  drag t <> None -> isUpdatePending t = false ->
  run t [MouseMove x y; AnimationFrame] = update (recorded t x y).
Proof.
  intros Hd Hp. unfold run. cbn [fold_left step]. unfold handleMouseMove.
  destruct (drag t); [|contradiction].
  cbn [isUpdatePending set_lastMousePosition]. rewrite Hp. reflexivity.
Qed.

Lemma update_recorded (t t' : Trackball) (d : Drag) (x y : num) :
  drag t = Some d ->
  isInBounds x y (box d) = true ->
  updateRotation (recorded t x y) x y = Some t' ->
  update (recorded t x y) = set_isUpdatePending (draw t') false.
Proof.
  intros Hd Hb Hu. unfold update.
  change (lastMousePosition (recorded t x y)) with (Some (x, y)).
  change (drag (recorded t x y)) with (drag t).
  rewrite Hd, Hb, Hu. reflexivity.
Qed.

Lemma update_recorded_out (t : Trackball) (d : Drag) (x y : num) :
  drag t = Some d ->
  isInBounds x y (box d) = false ->
  update (recorded t x y) = set_isUpdatePending (recorded t x y) false.
Proof.
  intros Hd Hb. unfold update.
  change (lastMousePosition (recorded t x y)) with (Some (x, y)).
  change (drag (recorded t x y)) with (drag t).
  rewrite Hd, Hb. reflexivity.
Qed.

(** One sample of 'trackball_no_precession'. *)
Lemma no_precession_sample (t : Trackball) (d : Drag) (x y : num) :
  rotationMethod (opts t) = Some "trackball_no_precession"%string ->
  drag t = Some d ->
  isUpdatePending t = false ->
  let t' := run t [MouseMove x y; AnimationFrame] in
  opts t' = opts t /\ drag t' = Some d /\ isUpdatePending t' = false /\
  q0 t' = q0 t /\
  (isInBounds x y (box d) = true ->
   neqb (x - fst (startPosition d)) (Fin 0)
     && neqb (y - snd (startPosition d)) (Fin 0) = false ->
   q t' = mul (trackball_dq (nmin (box_height (box d)) (box_width (box d)))
                 (x - fst (startPosition d)) (y - snd (startPosition d)))
              (q0 t)).
Proof.
  intros Hm Hd Hp. cbv zeta.
  rewrite move_frame by (try rewrite Hd; congruence).
  destruct (isInBounds x y (box d)) eqn:Hb.
  - assert (Hu : exists t',
               updateRotation (recorded t x y) x y = Some t' /\
               opts t' = opts t /\ drag t' = Some d /\ q0 t' = q0 t /\
               (neqb (x - fst (startPosition d)) (Fin 0)
                  && neqb (y - snd (startPosition d)) (Fin 0) = false ->
                q t' = mul (trackball_dq
                              (nmin (box_height (box d)) (box_width (box d)))
                              (x - fst (startPosition d))
                              (y - snd (startPosition d))) (q0 t))).
    { unfold updateRotation.
      change (drag (recorded t x y)) with (drag t).
      change (opts (recorded t x y)) with (opts t). rewrite Hd.
      destruct (neqb _ _ && neqb _ _) eqn:Hz.
      - eexists. split; [reflexivity|]. cbn. repeat split; try assumption.
        discriminate.
      - rewrite Hm. cbn [is_method String.eqb Ascii.eqb Bool.eqb orb].
        eexists. split; [reflexivity|].
        unfold updateTrackball.
        cbn [opts set_q recorded set_frameRequested set_isUpdatePending
               set_lastMousePosition].
        rewrite Hm. cbn [is_method String.eqb Ascii.eqb Bool.eqb].
        cbn [opts drag q0 q]. repeat split; assumption. }
    destruct Hu as (t' & Hu & Ho & Hd' & Hq0 & Hq).
    rewrite (update_recorded t t' d x y Hd Hb Hu). cbn.
    repeat split; try assumption. intros _. exact Hq.
  - rewrite (update_recorded_out t d x y Hd Hb). cbn.
    repeat split; try assumption. discriminate.
Qed.

(** C7: in a drag with 'trackball_no_precession', after any number of
    move samples the drag session (so its start position) and the
    committed orientation are those of the drag start, and the next
    in-bounds sample with a nonzero delta sets the current orientation
    to [dq * committed], where [dq] is built from the deltas to the
    original start position and [committed] is the orientation from
    before the samples. *)
Theorem no_precession_keeps_anchor (t : Trackball) (d : Drag)
    (l : list (num * num)) (x y : num) :
  rotationMethod (opts t) = Some "trackball_no_precession"%string ->
  drag t = Some d ->
  isUpdatePending t = false ->
  isInBounds x y (box d) = true ->
  neqb (x - fst (startPosition d)) (Fin 0)
    && neqb (y - snd (startPosition d)) (Fin 0) = false ->
  drag (run t (samples l)) = Some d /\
  q0 (run t (samples l)) = q0 t /\
  q (run t (samples l ++ [MouseMove x y; AnimationFrame])) =
    mul (trackball_dq (nmin (box_height (box d)) (box_width (box d)))
           (x - fst (startPosition d)) (y - snd (startPosition d)))
        (q0 t).
Proof.
  intros Hm Hd Hp Hb Hz.
  assert (H : opts (run t (samples l)) = opts t /\
              drag (run t (samples l)) = Some d /\
              isUpdatePending (run t (samples l)) = false /\
              q0 (run t (samples l)) = q0 t).
  { clear Hb Hz. revert t Hm Hd Hp.
    induction l as [|[x' y'] l IH]; intros t Hm Hd Hp.
    - simpl. auto.
    - change (samples ((x', y') :: l))
        with ([MouseMove x' y'; AnimationFrame] ++ samples l).
      rewrite run_app.
      destruct (no_precession_sample t d x' y' Hm Hd Hp)
        as (Ho & Hd' & Hp' & Hq0 & _).
      destruct (IH (run t [MouseMove x' y'; AnimationFrame]))
        as (Ho2 & Hd2 & Hp2 & Hq2); try assumption.
      + rewrite Ho. exact Hm.
      + rewrite Ho2, Hq2, Ho, Hq0. auto. }
  destruct H as (Ho & Hd' & Hp' & Hq0).
  split; [exact Hd'|]. split; [exact Hq0|].
  rewrite run_app.
  destruct (no_precession_sample (run t (samples l)) d x y)
    as (_ & _ & _ & _ & Hq); try assumption.
  - rewrite Ho. exact Hm.
  - rewrite Hq by assumption. rewrite Hq0. reflexivity.
Qed.

(** ** Algebra of finite quaternions *)

Lemma finite_lift2 (f : R -> R -> R) (a b : num) (r : R) :
  lift2 f a b = Fin r -> finite a /\ finite b.
Proof.
  destruct a as [x|], b as [y|]; simpl; try discriminate.
  intros _. split; eexists; reflexivity.
Qed.

Lemma mul_finite_inv (a b c : Quaternion) :
  mul a b = c -> finite (qw c) -> finiteQ a /\ finiteQ b.
Proof.
  intros H [r Hr]. rewrite <- H in Hr. unfold mul in Hr. cbn [qw] in Hr.
  unfold nsub, nmul in Hr.
  apply finite_lift2 in Hr. destruct Hr as [[r1 H1] Hz].
  apply finite_lift2 in H1. destruct H1 as [[r2 H2] Hy].
  apply finite_lift2 in H2. destruct H2 as [[r3 Hw] Hx].
  destruct Hz as [r4 Hz], Hy as [r5 Hy], Hx as [r6 Hx].
  apply finite_lift2 in Hw, Hx, Hy, Hz.
  unfold finiteQ. tauto.
Qed.

Lemma mul_assoc_finite (a b c : Quaternion) :
  finiteQ a -> finiteQ b -> finiteQ c ->
  mul a (mul b c) = mul (mul a b) c.
Proof.
  intros (Ha1 & Ha2 & Ha3 & Ha4) (Hb1 & Hb2 & Hb3 & Hb4)
    (Hc1 & Hc2 & Hc3 & Hc4).
  destruct a as [a1 a2 a3 a4], b as [b1 b2 b3 b4], c as [c1 c2 c3 c4].
  simpl in *.
  destruct Ha1 as [? ->], Ha2 as [? ->], Ha3 as [? ->], Ha4 as [? ->].
  destruct Hb1 as [? ->], Hb2 as [? ->], Hb3 as [? ->], Hb4 as [? ->].
  destruct Hc1 as [? ->], Hc2 as [? ->], Hc3 as [? ->], Hc4 as [? ->].
  unfold mul. cbn [qw qx qy qz]. num_simpl. f_equal; f_equal; ring.
Qed.

Lemma mul_ONE_l (c : Quaternion) : finiteQ c -> mul ONE c = c.
Proof.
  intros (Hc1 & Hc2 & Hc3 & Hc4). destruct c as [c1 c2 c3 c4]. simpl in *.
  destruct Hc1 as [? ->], Hc2 as [? ->], Hc3 as [? ->], Hc4 as [? ->].
  unfold mul, ONE. cbn [qw qx qy qz]. num_simpl. f_equal; f_equal; ring.
Qed.

Lemma unit_finite (a : Quaternion) : unit a -> finiteQ a.
Proof.
  unfold unit, norm2, nadd, nmul. intros H.
  apply finite_lift2 in H. destruct H as [[r1 H1] [r4 Hz]].
  apply finite_lift2 in H1. destruct H1 as [[r2 H2] [r5 Hy]].
  apply finite_lift2 in H2. destruct H2 as [[r3 Hw] [r6 Hx]].
  apply finite_lift2 in Hw, Hx, Hy, Hz. unfold finiteQ. tauto.
Qed.

(** The product of two unit quaternions is a unit quaternion. *)
Lemma unit_mul (a b : Quaternion) : unit a -> unit b -> unit (mul a b).
Proof.
  intros Ha Hb.
  destruct (unit_finite a Ha) as (Ha1 & Ha2 & Ha3 & Ha4).
  destruct (unit_finite b Hb) as (Hb1 & Hb2 & Hb3 & Hb4).
  destruct a as [a1 a2 a3 a4], b as [b1 b2 b3 b4]. simpl in *.
  destruct Ha1 as [w1 ->], Ha2 as [x1 ->], Ha3 as [y1 ->], Ha4 as [z1 ->].
  destruct Hb1 as [w2 ->], Hb2 as [x2 ->], Hb3 as [y2 ->], Hb4 as [z2 ->].
  unfold unit, norm2, mul in *. cbn [qw qx qy qz] in *.
  revert Ha Hb. num_simpl. intros Ha Hb.
  injection Ha as Ha. injection Hb as Hb. f_equal.
  transitivity ((w1 * w1 + x1 * x1 + y1 * y1 + z1 * z1)
                * (w2 * w2 + x2 * x2 + y2 * y2 + z2 * z2)); [ring|].
  rewrite Ha, Hb. ring.
Qed.

(** Two opposite increments cancel. *)
Lemma mul_inverse_cancel (a b c : Quaternion) :
  mul a b = ONE -> finiteQ c -> mul a (mul b c) = c.
Proof.
  intros H Hc.
  destruct (mul_finite_inv a b ONE H) as [Ha Hb]; [eexists; reflexivity|].
  rewrite mul_assoc_finite by assumption. rewrite H.
  apply mul_ONE_l. exact Hc.
Qed.

(** ** One sample of the methods that commit per sample *)

Lemma sample_dropped (t : Trackball) (d : Drag) (x y : num) :
  drag t = Some d ->
  isUpdatePending t = false ->
  isInBounds x y (box d) = false
  \/ neqb (x - fst (startPosition d)) (Fin 0)
       && neqb (y - snd (startPosition d)) (Fin 0) = true ->
  let t' := run t [MouseMove x y; AnimationFrame] in
  q t' = q t /\ q0 t' = q0 t /\ drag t' = Some d /\
  isUpdatePending t' = false /\ opts t' = opts t.
Proof.
  intros Hd Hp H. cbv zeta.
  rewrite move_frame by (try rewrite Hd; congruence).
  destruct (isInBounds x y (box d)) eqn:Hb.
  - destruct H as [H|H]; [discriminate|].
    assert (Hu : updateRotation (recorded t x y) x y = Some (recorded t x y)).
    { unfold updateRotation. change (drag (recorded t x y)) with (drag t).
      rewrite Hd, H. reflexivity. }
    rewrite (update_recorded t _ d x y Hd Hb Hu). cbn. auto.
  - rewrite (update_recorded_out t d x y Hd Hb). cbn. auto.
Qed.

Lemma trackball_sample (t : Trackball) (d : Drag) (x y : num) :
  rotationMethod (opts t) = Some "trackball"%string ->
  drag t = Some d ->
  isUpdatePending t = false ->
  isInBounds x y (box d) = true ->
  neqb (x - fst (startPosition d)) (Fin 0)
    && neqb (y - snd (startPosition d)) (Fin 0) = false ->
  let t' := run t [MouseMove x y; AnimationFrame] in
  let v := mul (trackball_dq (nmin (box_height (box d)) (box_width (box d)))
                  (x - fst (startPosition d)) (y - snd (startPosition d)))
               (q0 t) in
  q t' = v /\ q0 t' = v /\
  drag t' = Some (mkDrag (startVector d) (x, y) (box d)) /\
  isUpdatePending t' = false /\ opts t' = opts t.
Proof.
  intros Hm Hd Hp Hb Hz. cbv zeta.
  rewrite move_frame by (try rewrite Hd; congruence).
  erewrite (update_recorded t _ d x y Hd Hb).
  2:{ unfold updateRotation.
      change (drag (recorded t x y)) with (drag t).
      change (opts (recorded t x y)) with (opts t).
      rewrite Hd, Hz, Hm. cbn [is_method String.eqb Ascii.eqb Bool.eqb orb].
      unfold updateTrackball.
      cbn [opts set_q recorded set_frameRequested set_isUpdatePending
             set_lastMousePosition].
      rewrite Hm. cbn [is_method String.eqb Ascii.eqb Bool.eqb].
      reflexivity. }
  cbn. auto.
Qed.

Lemma sphere_sample (t : Trackball) (d : Drag) (x y : num) (u v : vec3) :
  rotationMethod (opts t) = Some "sphere"%string ->
  drag t = Some d ->
  isUpdatePending t = false ->
  isInBounds x y (box d) = true ->
  neqb (x - fst (startPosition d)) (Fin 0)
    && neqb (y - snd (startPosition d)) (Fin 0) = false ->
  startVector d = Some u ->
  project t x y (box d) = Some v ->
  let t' := run t [MouseMove x y; AnimationFrame] in
  let r := mul (fromVectors u v) (q0 t) in
  q t' = r /\ q0 t' = r /\
  drag t' = Some (mkDrag (Some v) (x, y) (box d)) /\
  isUpdatePending t' = false /\ opts t' = opts t.
Proof.
  intros Hm Hd Hp Hb Hz Hu Hv. cbv zeta.
  rewrite move_frame by (try rewrite Hd; congruence).
  erewrite (update_recorded t _ d x y Hd Hb).
  2:{ unfold updateRotation.
      change (drag (recorded t x y)) with (drag t).
      change (opts (recorded t x y)) with (opts t).
      rewrite Hd, Hz, Hm. cbn [is_method String.eqb Ascii.eqb Bool.eqb orb].
      unfold updateSphericalMethods.
      rewrite (project_opts (recorded t x y) t) by reflexivity.
      rewrite Hu, Hv.
      change (opts (recorded t x y)) with (opts t). rewrite Hm.
      cbn [is_method String.eqb Ascii.eqb Bool.eqb].
      reflexivity. }
  cbn. auto.
Qed.

Lemma project_sphere_defined (t : Trackball) (x y : num) (b : Box) :
  rotationMethod (opts t) = Some "sphere"%string ->
  exists u, project t x y b = Some u.
Proof.
  intros Hm. unfold project. rewrite Hm.
  cbn [includes existsb is_method String.eqb Ascii.eqb Bool.eqb orb].
  destruct (nlt _ _); [eexists; reflexivity|].
  destruct (nlt _ _); eexists; reflexivity.
Qed.

Lemma zero_delta (a b : R) :
  neqb (Fin a - Fin b) (Fin 0) = true <-> a = b.
Proof.
  num_simpl. unfold neqb. destruct (Req_dec_T (a - b) 0); split; intros H;
    try reflexivity; try discriminate; lra.
Qed.

Lemma zero_deltas_sym (x y sx sy : R) :
  neqb (Fin x - Fin sx) (Fin 0) && neqb (Fin y - Fin sy) (Fin 0) =
  neqb (Fin sx - Fin x) (Fin 0) && neqb (Fin sy - Fin y) (Fin 0).
Proof.
  num_simpl. unfold neqb.
  destruct (Req_dec_T (x - sx) 0), (Req_dec_T (sx - x) 0),
    (Req_dec_T (y - sy) 0), (Req_dec_T (sy - y) 0);
    try reflexivity; exfalso; lra.
Qed.

(** ** The round trip *)

(** C3: for 'trackball' and 'sphere', from an idle state with a finite
    orientation, a drag that starts at S (inside the box), moves to P
    and moves back to S leaves the current orientation as it was at the
    drag start.  For 'trackball' the smaller side of the box is finite
    and not zero; for 'sphere' the primitive [fromVectors] is such that
    the rotation from the projection of P back to that of S is the
    inverse of the rotation from S to P. *)
Theorem round_trip_restores (t : Trackball) (b : Box) (sx sy px py : R) :
  drag t = None ->
  q0 t = q t ->
  finiteQ (q t) ->
  isUpdatePending t = false ->
  isInBounds (Fin sx) (Fin sy) b = true ->
  (rotationMethod (opts t) = Some "trackball"%string /\
   exists m : R, nmin (box_height b) (box_width b) = Fin m /\ m <> 0)
  \/ (rotationMethod (opts t) = Some "sphere"%string /\
      forall u v : vec3,
        project t (Fin sx) (Fin sy) b = Some u ->
        project t (Fin px) (Fin py) b = Some v ->
        mul (fromVectors v u) (fromVectors u v) = ONE) ->
  q (run t [MouseDown (Fin sx) (Fin sy) b;
            MouseMove (Fin px) (Fin py); AnimationFrame;
            MouseMove (Fin sx) (Fin sy); AnimationFrame]) = q t.
Proof.
  intros Hidle Hq0 Hfin Hp HbS Hmeth.
  change (run t [MouseDown (Fin sx) (Fin sy) b;
                 MouseMove (Fin px) (Fin py); AnimationFrame;
                 MouseMove (Fin sx) (Fin sy); AnimationFrame])
    with (run (run (handleMouseDown t (Fin sx) (Fin sy) b)
                 [MouseMove (Fin px) (Fin py); AnimationFrame])
            [MouseMove (Fin sx) (Fin sy); AnimationFrame]).
  set (d1 := mkDrag (project t (Fin sx) (Fin sy) b) (Fin sx, Fin sy) b).
  set (t1 := handleMouseDown t (Fin sx) (Fin sy) b).
  assert (Hd1 : drag t1 = Some d1) by reflexivity.
  assert (Hp1 : isUpdatePending t1 = false) by exact Hp.
  assert (Ho1 : opts t1 = opts t) by reflexivity.
  assert (Hq1 : q t1 = q t) by reflexivity.
  assert (Hq01 : q0 t1 = q t) by exact Hq0.
  assert (HzS : neqb (Fin sx - Fin sx) (Fin 0)
                  && neqb (Fin sy - Fin sy) (Fin 0) = true).
  { apply andb_true_iff. split; apply zero_delta; reflexivity. }
  destruct (isInBounds (Fin px) (Fin py) b) eqn:HbP.
  2:{ (* the sample at P is out of bounds *)
    destruct (sample_dropped t1 d1 (Fin px) (Fin py) Hd1 Hp1)
      as (Ha & _ & Hc & Hd & _); [left; exact HbP|].
    destruct (sample_dropped _ d1 (Fin sx) (Fin sy) Hc Hd)
      as (Ha' & _); [right; exact HzS|].
    rewrite Ha', Ha. exact Hq1. }
  destruct (neqb (Fin px - Fin sx) (Fin 0)
              && neqb (Fin py - Fin sy) (Fin 0)) eqn:HzP.
  { (* P is S *)
    destruct (sample_dropped t1 d1 (Fin px) (Fin py) Hd1 Hp1)
      as (Ha & _ & Hc & Hd & _); [right; exact HzP|].
    destruct (sample_dropped _ d1 (Fin sx) (Fin sy) Hc Hd)
      as (Ha' & _); [right; exact HzS|].
    rewrite Ha', Ha. exact Hq1. }
  assert (HzP' : neqb (Fin sx - Fin px) (Fin 0)
                   && neqb (Fin sy - Fin py) (Fin 0) = false).
  { rewrite <- zero_deltas_sym. exact HzP. }
  assert (Hdelta : ~ (px - sx = 0 /\ py - sy = 0)).
  { intros [H1 H2]. apply andb_false_iff in HzP.
    destruct HzP as [H|H]; apply not_true_iff_false in H; apply H;
      apply zero_delta; lra. }
  destruct Hmeth as [[Hm (m & Hmin & Hm0)]|[Hm Hinv]].
- (* trackball *)
  assert (HmT : rotationMethod (opts t1) = Some "trackball"%string)
    by (rewrite Ho1; exact Hm).
  destruct (trackball_sample t1 d1 (Fin px) (Fin py) HmT Hd1 Hp1 HbP HzP)
    as (Ha & Hb & Hc & Hd & He).
  set (t2 := run t1 [MouseMove (Fin px) (Fin py); AnimationFrame]) in *.
  assert (HmT2 : rotationMethod (opts t2) = Some "trackball"%string)
    by (rewrite He; exact HmT).
  destruct (trackball_sample t2 _ (Fin sx) (Fin sy) HmT2 Hc Hd HbS HzP')
    as (Ha' & _).
  rewrite Ha'. rewrite Hb. cbn [box startPosition fst snd d1].
  rewrite Hmin, Hq01. num_simpl.
  replace (sx - px) with (- (px - sx)) by ring.
  replace (sy - py) with (- (py - sy)) by ring.
  apply mul_inverse_cancel; [|exact Hfin].
  apply trackball_dq_inverse; assumption.
- (* sphere *)
  assert (HmS : rotationMethod (opts t1) = Some "sphere"%string)
    by (rewrite Ho1; exact Hm).
  destruct (project_sphere_defined t (Fin sx) (Fin sy) b Hm) as [u Hu].
  destruct (project_sphere_defined t (Fin px) (Fin py) b Hm) as [v Hv].
  assert (Hv1 : project t1 (Fin px) (Fin py) (box d1) = Some v).
  { rewrite (project_opts t1 t) by exact Ho1. exact Hv. }
  assert (Hu1 : startVector d1 = Some u) by exact Hu.
  destruct (sphere_sample t1 d1 (Fin px) (Fin py) u v HmS Hd1 Hp1 HbP HzP
              Hu1 Hv1)
    as (Ha & Hb & Hc & Hd & He).
  set (t2 := run t1 [MouseMove (Fin px) (Fin py); AnimationFrame]) in *.
  assert (HmS2 : rotationMethod (opts t2) = Some "sphere"%string)
    by (rewrite He; exact HmS).
  assert (Hu2 : project t2 (Fin sx) (Fin sy) b = Some u).
  { rewrite (project_opts t2 t) by (rewrite He; exact Ho1). exact Hu. }
  destruct (sphere_sample t2 _ (Fin sx) (Fin sy) v u HmS2 Hc Hd HbS HzP'
              eq_refl Hu2)
    as (Ha' & _).
  rewrite Ha'. rewrite Hb. rewrite Hq01.
  apply mul_inverse_cancel; [|exact Hfin].
  apply Hinv; assumption.
Qed.

(** ** Unit quaternions of the rotation methods

    What holds of C1: each method composes unit quaternions, as long as
    its inputs are finite. *)

Lemma fromEuler_unit (phi theta psi : R) :
  unit (fromEuler (Fin phi) (Fin theta) (Fin psi)).
Proof.
  unfold unit, norm2, fromEuler. cbv zeta. cbn [qw qx qy qz]. num_simpl.
  assert (Hx := sin2_cos2 (phi * (1 / 2))).
  assert (Hy := sin2_cos2 (theta * (1 / 2))).
  assert (Hz := sin2_cos2 (psi * (1 / 2))). unfold Rsqr in *.
  set (cX := cos (phi * (1 / 2))) in *. set (sX := sin (phi * (1 / 2))) in *.
  set (cY := cos (theta * (1 / 2))) in *.
  set (sY := sin (theta * (1 / 2))) in *.
  set (cZ := cos (psi * (1 / 2))) in *. set (sZ := sin (psi * (1 / 2))) in *.
  f_equal.
  transitivity ((sX * sX + cX * cX) * (sY * sY + cY * cY)
                * (sZ * sZ + cZ * cZ)); [ring|].
  rewrite Hx, Hy, Hz. ring.
Qed.

Lemma updateTrackball_unit (t : Trackball) (d : Drag) (dx dy m : R)
    (x y : num) :
  nmin (box_height (box d)) (box_width (box d)) = Fin m ->
  m <> 0 ->
  ~ (dx = 0 /\ dy = 0) ->
  unit (q0 t) ->
  unit (q (updateTrackball t d (Fin dx) (Fin dy) x y)) /\
  unit (q0 (updateTrackball t d (Fin dx) (Fin dy) x y)).
Proof.
  intros Hm Hm0 Hd Hq.
  assert (Hu : unit (mul (trackball_dq (Fin m) (Fin dx) (Fin dy)) (q0 t))).
  { apply unit_mul; [|exact Hq]. apply trackball_dq_unit; assumption. }
  unfold updateTrackball. rewrite Hm. cbn [opts set_q].
  destruct (is_method (rotationMethod (opts t)) "trackball"); cbn; auto.
Qed.

Lemma updateSphericalMethods_unit (t t' : Trackball) (d : Drag) (x y : num) :
  (forall u v, unit (fromVectors u v)) ->
  unit (q t) -> unit (q0 t) ->
  updateSphericalMethods t d x y = Some t' ->
  unit (q t') /\ unit (q0 t').
Proof.
  intros Hf Hq Hq0. unfold updateSphericalMethods.
  destruct (startVector d) as [u|]; [|discriminate].
  destruct (project t x y (box d)) as [v|]; [|discriminate].
  destruct (is_method (rotationMethod (opts t)) "sphere").
  - intros H. injection H as <-. cbn. split; apply unit_mul; auto.
  - destruct (includes _ _); intros H; injection H as <-; cbn; auto.
    split; [|exact Hq0]. apply unit_mul; [apply Hf|].
    apply unit_mul; auto.
Qed.

(** ** Two defects *)

Lemma isInBounds_fin (x y l r tp bt : R) (b : Box) :
  box_left b = Fin l -> box_right b = Fin r ->
  box_top b = Fin tp -> box_bottom b = Fin bt ->
  l <= x <= r -> tp <= y <= bt ->
  isInBounds (Fin x) (Fin y) b = true.
Proof.
  intros Hl Hr Ht Hb Hx Hy. unfold isInBounds, nge.
  rewrite Hl, Hr, Ht, Hb. rewrite !nle_true by lra. reflexivity.
Qed.

Lemma q_after_update (t : Trackball) :
  q (set_isUpdatePending (draw t) false) = q t.
Proof. reflexivity. Qed.

(** With [undefined] drag-start snapshots [#updateAzEl] produces a
    quaternion of NaN. *)
Lemma updateAzEl_undefined_start (t : Trackball) (d : Drag) (dx dy : num) :
  azimuth_start t = None ->
  elevation_start t = None ->
  clampElevation (opts t) = false ->
  q (updateAzEl t d dx dy) = mkQuaternion NaN NaN NaN NaN.
Proof.
  intros Ha He Hc. unfold updateAzEl.
  cbn [opts set_azimuth]. rewrite Hc.
  cbn [q set_q set_elevation set_azimuth azimuth elevation azimuth_start
         elevation_start].
  rewrite Ha, He. reflexivity.
Qed.

(** The first applied sample of an 'azel' drag whose drag-start snapshots
    are [undefined]. *)
Lemma azel_sample_undefined_start (t : Trackball) (d : Drag) (x y sx sy : R) :
  drag t = Some d ->
  startPosition d = (Fin sx, Fin sy) ->
  isUpdatePending t = false ->
  rotationMethod (opts t) = Some "azel"%string ->
  clampElevation (opts t) = false ->
  azimuth_start t = None ->
  elevation_start t = None ->
  isInBounds (Fin x) (Fin y) (box d) = true ->
  x - sx <> 0 ->
  q (run t [MouseMove (Fin x) (Fin y); AnimationFrame])
  = mkQuaternion NaN NaN NaN NaN.
Proof.
  intros Hd Hs Hp Hm Hc Has Hes Hb Hx.
  rewrite move_frame by (try rewrite Hd; congruence).
  assert (Hu : updateRotation (recorded t (Fin x) (Fin y)) (Fin x) (Fin y)
               = Some (updateAzEl (recorded t (Fin x) (Fin y)) d
                         (Fin (x - sx)) (Fin (y - sy)))).
  { unfold updateRotation.
    change (drag (recorded t (Fin x) (Fin y))) with (drag t).
    change (opts (recorded t (Fin x) (Fin y))) with (opts t).
    rewrite Hd, Hm, Hs. cbn [fst snd]. num_simpl.
    rewrite (neqb_false (x - sx) 0) by exact Hx.
    reflexivity. }
  rewrite (update_recorded t _ d _ _ Hd Hb Hu).
  rewrite q_after_update.
  apply updateAzEl_undefined_start; assumption.
Qed.

(** C1 fails for 'azel': [#azimuth] and [#elevation] have no initial
    value, a drag that ends before any sample was applied copies
    [undefined] into the drag-start snapshots, and the first sample of
    the next drag computes [undefined + delta * scale], which is NaN:
    the current orientation has NaN components and is not a unit
    quaternion. *)
Theorem azel_click_then_drag_not_unit :
  q (run (constructor (with_method "azel"))
       ([MouseDown (Fin 200) (Fin 200) box400; MouseUp;
         MouseDown (Fin 200) (Fin 200) box400]
        ++ [MouseMove (Fin 220) (Fin 200); AnimationFrame]))
  = mkQuaternion NaN NaN NaN NaN /\
  ~ unit (q (run (constructor (with_method "azel"))
               ([MouseDown (Fin 200) (Fin 200) box400; MouseUp;
                 MouseDown (Fin 200) (Fin 200) box400]
                ++ [MouseMove (Fin 220) (Fin 200); AnimationFrame]))).
Proof.
  rewrite run_app.
  rewrite (azel_sample_undefined_start _
             (mkDrag None (Fin 200, Fin 200) box400) 220 200 200 200);
    try reflexivity.
  - split; [reflexivity|].
    unfold unit, norm2. cbn [qw qx qy qz]. num_simpl. discriminate.
  - apply (isInBounds_fin 220 200 0 400 0 400); try reflexivity; lra.
  - lra.
Qed.

(** No projection is defined for a method outside the documented seven. *)
Lemma project_unknown_method (t : Trackball) (x y : num) (b : Box) :
  includes methods (rotationMethod (opts t)) = false ->
  project t x y b = None.
Proof.
  intros H. unfold project.
  destruct (rotationMethod (opts t)) as [m|]; [|reflexivity].
  unfold includes, methods in H. cbn [existsb is_method] in H.
  repeat (apply orb_false_iff in H; destruct H as [? H]).
  cbn [includes existsb is_method].
  repeat match goal with
         | E : (m =? _)%string = false |- _ => rewrite E; clear E
         end.
  reflexivity.
Qed.

(** C4 fails: the constructor accepts a missing [rotationMethod] (the
    Quick Start of the README) and keeps it [undefined], and it accepts
    an unknown one ('arcball') and keeps it; in both cases no projection
    is defined, the drag starts with an [undefined] start vector, and
    the first sample with a nonzero delta raises a TypeError in
    [#updateRotation]. *)
Theorem missing_method_accepted :
  (rotationMethod (opts (constructor quick_start)) = None /\
   (forall x y b, project (constructor quick_start) x y b = None) /\
   (forall x y b,
       drag (step (constructor quick_start) (MouseDown x y b))
       = Some (mkDrag None (x, y) b)) /\
   updateRotation
     (step (constructor quick_start) (MouseDown (Fin 200) (Fin 200) box400))
     (Fin 220) (Fin 200) = None) /\
  (rotationMethod (opts (constructor (with_method "arcball")))
   = Some "arcball"%string /\
   (forall x y b, project (constructor (with_method "arcball")) x y b = None) /\
   (forall x y b,
       drag (step (constructor (with_method "arcball")) (MouseDown x y b))
       = Some (mkDrag None (x, y) b)) /\
   updateRotation
     (step (constructor (with_method "arcball"))
        (MouseDown (Fin 200) (Fin 200) box400))
     (Fin 220) (Fin 200) = None).
Proof.
  split.
  - split; [reflexivity|]. split; [reflexivity|]. split; [reflexivity|].
    unfold updateRotation.
    change (drag (step (constructor quick_start)
                    (MouseDown (Fin 200) (Fin 200) box400)))
      with (Some (mkDrag None (Fin 200, Fin 200) box400)).
    cbn [startPosition fst snd]. num_simpl.
    rewrite (neqb_false (220 - 200) 0) by lra.
    reflexivity.
  - split; [reflexivity|]. split; [reflexivity|]. split; [reflexivity|].
    unfold updateRotation.
    change (drag (step (constructor (with_method "arcball"))
                    (MouseDown (Fin 200) (Fin 200) box400)))
      with (Some (mkDrag None (Fin 200, Fin 200) box400)).
    cbn [startPosition fst snd]. num_simpl.
    rewrite (neqb_false (220 - 200) 0) by lra.
    reflexivity.
Qed.

(** ** The reference primitive [shortestArc] *)

Lemma newNormalized_fin (w x y z : R) :
  0 < w * w + x * x + y * y + z * z ->
  newNormalized (Fin w) (Fin x) (Fin y) (Fin z) =
    let il := 1 / sqrt (w * w + x * x + y * y + z * z) in
    mkQuaternion (Fin (w * il)) (Fin (x * il)) (Fin (y * il)) (Fin (z * il)).
Proof.
  intros Hs. unfold newNormalized. num_simpl.
  rewrite nsqrt_fin by lra.
  assert (H := sqrt_lt_R0 _ Hs).
  rewrite ndiv_fin by lra. num_simpl. reflexivity.
Qed.

(** A normalised quaternion times its normalised conjugate. *)
Lemma newNormalized_conj (w x y z : R) :
  0 < w * w + x * x + y * y + z * z ->
  mul (newNormalized (Fin w) (Fin (- x)) (Fin (- y)) (Fin (- z)))
      (newNormalized (Fin w) (Fin x) (Fin y) (Fin z)) = ONE.
Proof.
  intros Hs.
  rewrite (newNormalized_fin w x y z) by exact Hs.
  assert (Hs' : w * w + - x * - x + - y * - y + - z * - z
                = w * w + x * x + y * y + z * z) by ring.
  rewrite (newNormalized_fin w (- x) (- y) (- z)) by (rewrite Hs'; exact Hs).
  rewrite Hs'. cbv zeta.
  set (s := w * w + x * x + y * y + z * z) in *.
  assert (Hq : sqrt s * sqrt s = s) by (apply sqrt_sqrt; lra).
  assert (Hp := sqrt_lt_R0 _ Hs).
  set (r := sqrt s) in *.
  unfold mul, ONE. cbn [qw qx qy qz]. num_simpl.
  f_equal; f_equal.
  - transitivity (s / (r * r)); [unfold s; field; lra|].
    rewrite Hq. field. lra.
  - field. lra.
  - field. lra.
  - field. lra.
Qed.

Lemma normalized_fin (ux uy uz : R) :
  exists a b c : R,
    normalized (Fin ux, Fin uy, Fin uz) = (Fin a, Fin b, Fin c) /\
    (a * a + b * b + c * c = 1 \/ (a = 0 /\ b = 0 /\ c = 0)).
Proof.
  unfold normalized. num_simpl.
  set (s := ux * ux + uy * uy + uz * uz).
  assert (Hs : 0 <= s).
  { assert (H1 := Rle_0_sqr ux). assert (H2 := Rle_0_sqr uy).
    assert (H3 := Rle_0_sqr uz). unfold Rsqr in *. unfold s. lra. }
  rewrite nsqrt_fin by exact Hs.
  assert (Hq : sqrt s * sqrt s = s) by (apply sqrt_sqrt; exact Hs).
  assert (Hr := sqrt_pos s).
  set (r := sqrt s) in *.
  destruct (Rlt_dec 0 r) as [Hp|Hp].
  - rewrite nlt_true by exact Hp. rewrite !ndiv_fin by lra.
    exists (ux / r), (uy / r), (uz / r).
    split; [reflexivity|]. left.
    transitivity (s / (r * r)); [unfold s; field; lra|].
    rewrite Hq. field. nra.
  - rewrite nlt_false by lra.
    exists ux, uy, uz. split; [reflexivity|]. right.
    assert (H0 : r = 0) by lra.
    rewrite H0 in Hq.
    assert (H1 := Rle_0_sqr ux). assert (H2 := Rle_0_sqr uy).
    assert (H3 := Rle_0_sqr uz). unfold Rsqr in *. unfold s in Hq.
    repeat split; nra.
Qed.

Lemma nlt_abs (a c : R) :
  nlt (nabs (Fin c)) (nabs (Fin a)) = nlt (nabs (Fin (- c))) (nabs (Fin (- a))).
Proof. unfold nabs. cbn [lift1]. rewrite !Rabs_Ropp. reflexivity. Qed.

(** The rotation from [v] back to [u] is the inverse of the rotation
    from [u] to [v], for all finite vectors. *)
Lemma shortestArc_inverse (ux uy uz vx vy vz : R) :
  mul (shortestArc (Fin vx, Fin vy, Fin vz) (Fin ux, Fin uy, Fin uz))
      (shortestArc (Fin ux, Fin uy, Fin uz) (Fin vx, Fin vy, Fin vz)) = ONE.
Proof.
  destruct (normalized_fin ux uy uz) as (a & b & c & Hu & HU).
  destruct (normalized_fin vx vy vz) as (d & e & f & Hv & HV).
  unfold shortestArc. rewrite Hu, Hv. num_simpl.
  replace (d * a + e * b + f * c) with (a * d + b * e + c * f) by ring.
  set (dot := a * d + b * e + c * f).
  destruct (Rle_dec 1 dot) as [Hpar|Hpar].
  - rewrite !nle_true by exact Hpar. apply mul_ONE_l.
    repeat split; eexists; reflexivity.
  - rewrite !nle_false by lra.
    destruct (Rle_dec (1 + dot) 0) as [Hopp|Hopp].
    + rewrite !nle_true by exact Hopp.
      assert (Hsq : (a + d) * (a + d) + (b + e) * (b + e)
                    + (c + f) * (c + f)
                    = (a * a + b * b + c * c) + (d * d + e * e + f * f)
                      + 2 * dot) by (unfold dot; ring).
      assert (HU1 : a * a + b * b + c * c = 1).
      { destruct HU as [H|(H1 & H2 & H3)]; [exact H|].
        exfalso. unfold dot in Hopp. rewrite H1, H2, H3 in Hopp. lra. }
      assert (HV1 : d * d + e * e + f * f = 1).
      { destruct HV as [H|(H1 & H2 & H3)]; [exact H|].
        exfalso. unfold dot in Hopp. rewrite H1, H2, H3 in Hopp. lra. }
      assert (H1 := Rle_0_sqr (a + d)). assert (H2 := Rle_0_sqr (b + e)).
      assert (H3 := Rle_0_sqr (c + f)). unfold Rsqr in *.
      assert (Hd : d = - a) by nra.
      assert (He : e = - b) by nra.
      assert (Hf : f = - c) by nra.
      subst d e f. rewrite <- nlt_abs.
      assert (Ha2 := Rle_0_sqr a). assert (Hb2 := Rle_0_sqr b).
      assert (Hc2 := Rle_0_sqr c). unfold Rsqr in *.
      unfold nabs. cbn [lift1].
      destruct (Rlt_dec (Rabs c) (Rabs a)) as [Hac|Hac].
      * rewrite nlt_true by exact Hac.
        assert (Ha0 : a <> 0).
        { intros H0. rewrite H0, Rabs_R0 in Hac.
          assert (H := Rabs_pos c). lra. }
        replace (newNormalized (Fin 0) (Fin (- - b)) (Fin (- a)) (Fin 0))
          with (newNormalized (Fin 0) (Fin (- - b)) (Fin (- a)) (Fin (- 0)))
          by (rewrite Ropp_0; reflexivity).
        apply (newNormalized_conj 0 (- b) a 0). nra.
      * rewrite nlt_false by lra.
        assert (Hbc : 0 < b * b + c * c).
        { destruct (Req_dec_T c 0) as [Hc0|Hc0].
          - rewrite Hc0, Rabs_R0 in Hac.
            assert (H := Rabs_pos a).
            assert (Ha0 : a = 0).
            { destruct (Req_dec_T a 0) as [E|E]; [exact E|].
              apply Rabs_no_R0 in E. lra. }
            subst a c. nra.
          - nra. }
        replace (newNormalized (Fin 0) (Fin 0) (Fin (- - c)) (Fin (- b)))
          with (newNormalized (Fin 0) (Fin (- 0)) (Fin (- - c)) (Fin (- b)))
          by (rewrite Ropp_0; reflexivity).
        apply (newNormalized_conj 0 0 (- c) b). nra.
    + rewrite !nle_false by lra.
      replace (e * c - f * b) with (- (b * f - c * e)) by ring.
      replace (f * a - d * c) with (- (c * d - a * f)) by ring.
      replace (d * b - e * a) with (- (a * e - b * d)) by ring.
      apply newNormalized_conj.
      assert (H1 := Rle_0_sqr (b * f - c * e)).
      assert (H2 := Rle_0_sqr (c * d - a * f)).
      assert (H3 := Rle_0_sqr (a * e - b * d)). unfold Rsqr in *.
      assert (H4 : 0 < (1 + dot) * (1 + dot)) by nra.
      lra.
Qed.

(** * Further properties of the controller *)

(** ** Coalescing of moves *)

Lemma handleMouseMove_twice (t : Trackball) (a b x y : num) :
  handleMouseMove (handleMouseMove t a b) x y = handleMouseMove t x y.
Proof.
  destruct t as [? ? ? ? ? ? dr pending ? ? ? ?].
  destruct dr, pending; reflexivity.
Qed.

(** X1: moves that arrive before the frame callback runs are coalesced:
    only the last one is recorded, whatever the state. *)
Theorem moves_coalesce (t : Trackball) (l : list (num * num)) (x y : num)
    (rest : list Event) :
  run t (moves l ++ MouseMove x y :: rest) = run t (MouseMove x y :: rest).
Proof.
  revert t. induction l as [|[a b] l IH]; intros t; [reflexivity|].
  cbn [moves map app fst snd]. change (map _ l) with (moves l).
  unfold run at 1. cbn [fold_left]. fold (run (step t (MouseMove a b))
                                            (moves l ++ MouseMove x y :: rest)).
  rewrite IH. unfold run. cbn [fold_left step].
  rewrite handleMouseMove_twice. reflexivity.
Qed.

(** ** What the draw callback has seen *)

Lemma update_drawn_current (t : Trackball) :
  drawn_current t -> drawn_current (update t).
Proof.
  unfold drawn_current, update. intros H.
  destruct (lastMousePosition t) as [[cx cy]|]; [|exact H].
  destruct (drag t) as [d|]; [|exact H].
  destruct (isInBounds cx cy (box d)); [|exact H].
  destruct (updateRotation t cx cy) as [t'|]; [reflexivity|exact H].
Qed.

Lemma step_drawn_current (t : Trackball) (e : Event) :
  drawn_current t -> drawn_current (step t e).
Proof.
  intros H. destruct e as [cx cy rect|cx cy| | |quat|]; cbn [step].
  - reflexivity.
  - unfold handleMouseMove. destruct (drag t); [|exact H].
    destruct (negb _); exact H.
  - unfold handleMouseUp. destruct (drag t); [reflexivity|exact H].
  - destruct (frameRequested t); [|exact H].
    apply update_drawn_current. exact H.
  - unfold rotate. destruct (drag t); [exact H|reflexivity].
  - reflexivity.
Qed.

(** X2: after the constructor and any events, with any method, the
    last quaternion handed to [onDraw] is the current orientation: no
    handler changes [#q] without drawing it. *)
Theorem last_drawn_is_current (o : Options) (evs : list Event) :
  hd_error (drawn (run (constructor o) evs))
  = Some (q (run (constructor o) evs)).
Proof.
  assert (H : forall l t, drawn_current t -> drawn_current (run t l)).
  { induction l as [|e l IH]; intros t Ht; [exact Ht|].
    apply IH. apply step_drawn_current. exact Ht. }
  apply H. reflexivity.
Qed.

(** ** Events outside a drag *)

(** X3: with no drag active, moves, mouse-ups and frames change
    neither orientation, start no drag and draw nothing. *)
Theorem idle_ignores_pointer_noise (t : Trackball) (evs : list Event) :
  drag t = None ->
  forallb pointer_noise evs = true ->
  q (run t evs) = q t /\ q0 (run t evs) = q0 t /\
  drag (run t evs) = None /\ drawn (run t evs) = drawn t.
Proof.
  revert t. induction evs as [|e evs IH]; intros t Hd Hn; [auto|].
  cbn [forallb] in Hn. apply andb_true_iff in Hn. destruct Hn as [He Hn].
  assert (Hs : q (step t e) = q t /\ q0 (step t e) = q0 t /\
               drag (step t e) = None /\ drawn (step t e) = drawn t).
  { destruct e as [cx cy rect|cx cy| | |quat|]; try discriminate He;
      cbn [step].
    - unfold handleMouseMove. rewrite Hd. auto.
    - unfold handleMouseUp. rewrite Hd. auto.
    - destruct (frameRequested t); [|auto].
      rewrite update_idle by exact Hd. cbn. auto. }
  destruct Hs as (H1 & H2 & H3 & H4).
  destruct (IH (step t e) H3 Hn) as (I1 & I2 & I3 & I4).
  cbn [run fold_left]. fold (run (step t e) evs).
  rewrite I1, I2, I4, H1, H2, H4. auto.
Qed.

(** ** Samples that are not applied *)

(** X4: in a drag, a sample outside the box captured at the drag start
    is dropped: its position is recorded and nothing else changes, no
    orientation, no drag data, no draw. *)
Theorem out_of_bounds_sample_dropped (t : Trackball) (d : Drag) (x y : num) :
  drag t = Some d ->
  isUpdatePending t = false ->
  frameRequested t = false ->
  isInBounds x y (box d) = false ->
  run t [MouseMove x y; AnimationFrame]
  = set_lastMousePosition t (Some (x, y)).
Proof.
  intros Hd Hp Hf Hb.
  rewrite move_frame by (try rewrite Hd; congruence).
  rewrite (update_recorded_out t d x y Hd Hb).
  destruct t. cbn in *. subst. reflexivity.
Qed.

(** ** After a TypeError in the frame callback *)

Lemma update_throws (t : Trackball) (d : Drag) (x y : num) :
  drag t = Some d ->
  isInBounds x y (box d) = true ->
  updateRotation (recorded t x y) x y = None ->
  update (recorded t x y) = recorded t x y.
Proof.
  intros Hd Hb Hu. unfold update.
  change (lastMousePosition (recorded t x y)) with (Some (x, y)).
  change (drag (recorded t x y)) with (drag t).
  rewrite Hd, Hb, Hu. reflexivity.
Qed.

Lemma step_stuck (t : Trackball) (e : Event) :
  stuck t -> stuck (step t e).
Proof.
  unfold stuck. intros [Hp Hf].
  destruct e as [cx cy rect|cx cy| | |quat|]; cbn [step].
  - auto.
  - unfold handleMouseMove. destruct (drag t); [|auto].
    cbn [isUpdatePending set_lastMousePosition]. rewrite Hp. cbn. auto.
  - unfold handleMouseUp. destruct (drag t); auto.
  - rewrite Hf. auto.
  - unfold rotate. destruct (drag t); auto.
  - auto.
Qed.

Lemma step_stuck_q (t : Trackball) (e : Event) :
  stuck t -> pointer_event e = true -> q (step t e) = q t.
Proof.
  unfold stuck. intros [Hp Hf] He.
  destruct e as [cx cy rect|cx cy| | |quat|]; try discriminate He;
    cbn [step].
  - reflexivity.
  - unfold handleMouseMove. destruct (drag t); [|reflexivity].
    destruct (negb _); reflexivity.
  - unfold handleMouseUp. destruct (drag t); reflexivity.
  - rewrite Hf. reflexivity.
Qed.

(** X5: once the frame callback has thrown ([#isUpdatePending] set, no
    callback waiting), every later state is so too, [reset] and
    [rotate] included, and no pointer event changes the current
    orientation any more: no move ever requests a frame again. *)
Theorem stuck_forever (t : Trackball) (evs : list Event) :
  stuck t ->
  stuck (run t evs) /\
  (forallb pointer_event evs = true -> q (run t evs) = q t).
Proof.
  revert t. induction evs as [|e evs IH]; intros t Hs; [auto|].
  cbn [run fold_left]. fold (run (step t e) evs).
  destruct (IH (step t e) (step_stuck t e Hs)) as [I1 I2].
  split; [exact I1|]. intros Hn. cbn [forallb] in Hn.
  apply andb_true_iff in Hn. destruct Hn as [He Hn].
  rewrite (I2 Hn). apply step_stuck_q; assumption.
Qed.

(** ** Azimuth and elevation *)

Lemma updateAzEl_fin (t : Trackball) (d : Drag) (dx dy m a0 e0 : R) :
  nmin (box_width (box d)) (box_height (box d)) = Fin m ->
  m <> 0 ->
  azimuth_start t = Some (Fin a0) ->
  elevation_start t = Some (Fin e0) ->
  updateAzEl t d (Fin dx) (Fin dy) =
    let a := a0 + dx * (PI / m) in
    let e := if clampElevation (opts t)
             then Rmax (- PI / 2 + 1 / 100)
                    (Rmin (PI / 2 - 1 / 100) (e0 + dy * (PI / m)))
             else e0 + dy * (PI / m) in
    set_q (set_elevation (set_azimuth t (Some (Fin a))) (Some (Fin e)))
      (fromEuler (Fin e) (Fin a) (Fin 0)).
Proof.
  intros Hm Hm0 Ha He. unfold updateAzEl. rewrite Hm. unfold Math_PI.
  rewrite (ndiv_fin PI m) by exact Hm0.
  rewrite (ndiv_fin PI 2) by lra.
  cbn [opts set_azimuth azimuth_start elevation_start].
  rewrite Ha, He. num_simpl.
  rewrite (ndiv_fin (- PI) 2) by lra. num_simpl.
  destruct (clampElevation (opts t)); reflexivity.
Qed.

Lemma azel_sample (t : Trackball) (d : Drag) (x y sx sy m a0 e0 : R) :
  rotationMethod (opts t) = Some "azel"%string ->
  drag t = Some d ->
  startPosition d = (Fin sx, Fin sy) ->
  nmin (box_width (box d)) (box_height (box d)) = Fin m ->
  m <> 0 ->
  azimuth_start t = Some (Fin a0) ->
  elevation_start t = Some (Fin e0) ->
  isUpdatePending t = false ->
  isInBounds (Fin x) (Fin y) (box d) = true ->
  ~ (x - sx = 0 /\ y - sy = 0) ->
  run t [MouseMove (Fin x) (Fin y); AnimationFrame]
  = set_isUpdatePending
      (draw (updateAzEl (recorded t (Fin x) (Fin y)) d
               (Fin (x - sx)) (Fin (y - sy)))) false.
Proof.
  intros Hmeth Hd Hs Hm Hm0 Ha He Hp Hb Hdelta.
  rewrite move_frame by (try rewrite Hd; congruence).
  apply (update_recorded t _ d _ _ Hd Hb).
  unfold updateRotation.
  change (drag (recorded t (Fin x) (Fin y))) with (drag t).
  change (opts (recorded t (Fin x) (Fin y))) with (opts t).
  rewrite Hd, Hmeth, Hs. cbn [fst snd]. num_simpl.
  assert (Hz : neqb (Fin (x - sx)) (Fin 0) && neqb (Fin (y - sy)) (Fin 0)
               = false).
  { destruct (Req_dec_T (x - sx) 0) as [Hx|Hx].
    - rewrite (neqb_true _ _ Hx). cbn [andb]. apply neqb_false. tauto.
    - rewrite (neqb_false _ _ Hx). reflexivity. }
  rewrite Hz. reflexivity.
Qed.

(** X6: an applied 'azel' sample sets the current orientation from the
    two angles alone, [fromEuler(elevation, azimuth, 0)] with each
    angle its drag-start snapshot plus delta * pi / min(width, height):
    the result does not depend on the orientation before, it is a unit
    quaternion, and the mouse-up stores the angles as the snapshots of
    the next drag. *)
Theorem azel_sample_is_absolute (t : Trackball) (d : Drag)
    (x y sx sy m a0 e0 : R) :
  rotationMethod (opts t) = Some "azel"%string ->
  clampElevation (opts t) = false ->
  drag t = Some d ->
  startPosition d = (Fin sx, Fin sy) ->
  nmin (box_width (box d)) (box_height (box d)) = Fin m ->
  m <> 0 ->
  azimuth_start t = Some (Fin a0) ->
  elevation_start t = Some (Fin e0) ->
  isUpdatePending t = false ->
  isInBounds (Fin x) (Fin y) (box d) = true ->
  ~ (x - sx = 0 /\ y - sy = 0) ->
  q (run t ([MouseMove (Fin x) (Fin y); AnimationFrame] ++ [MouseUp]))
  = fromEuler (Fin (e0 + (y - sy) * (PI / m)))
      (Fin (a0 + (x - sx) * (PI / m))) (Fin 0) /\
  unit (q (run t ([MouseMove (Fin x) (Fin y); AnimationFrame] ++ [MouseUp])))
  /\
  q0 (run t ([MouseMove (Fin x) (Fin y); AnimationFrame] ++ [MouseUp]))
  = fromEuler (Fin (e0 + (y - sy) * (PI / m)))
      (Fin (a0 + (x - sx) * (PI / m))) (Fin 0) /\
  azimuth_start
    (run t ([MouseMove (Fin x) (Fin y); AnimationFrame] ++ [MouseUp]))
  = Some (Fin (a0 + (x - sx) * (PI / m))) /\
  elevation_start
    (run t ([MouseMove (Fin x) (Fin y); AnimationFrame] ++ [MouseUp]))
  = Some (Fin (e0 + (y - sy) * (PI / m))).
Proof.
  intros Hmeth Hc Hd Hs Hm Hm0 Ha He Hp Hb Hdelta.
  rewrite run_app.
  rewrite (azel_sample t d x y sx sy m a0 e0) by assumption.
  rewrite (updateAzEl_fin _ d (x - sx) (y - sy) m a0 e0) by assumption.
  change (opts (recorded t (Fin x) (Fin y))) with (opts t). rewrite Hc.
  cbv zeta. unfold run. cbn [fold_left step]. unfold handleMouseUp.
  cbn [drag set_isUpdatePending draw set_drawn set_q set_elevation
         set_azimuth recorded set_frameRequested set_lastMousePosition].
  rewrite Hd.
  cbn [q q0 azimuth_start elevation_start azimuth elevation draw set_drawn
         set_q set_q0 set_drag set_lastMousePosition set_azimuth_start
         set_elevation_start set_isUpdatePending set_elevation set_azimuth
         recorded set_frameRequested].
  repeat split. apply fromEuler_unit.
Qed.


(** ** The methods that keep the anchor *)

Lemma project_arcball_defined (t : Trackball) (x y : num) (b : Box) :
  includes ["shoemake"; "rounded_arcball"; "bell"]%string
    (rotationMethod (opts t)) = true ->
  exists v, project t x y b = Some v.
Proof.
  intros H. unfold project.
  destruct (includes ["sphere"; "shoemake"; "rounded_arcball"]%string
              (rotationMethod (opts t))) eqn:E0.
  - destruct (nlt _ _); [eexists; reflexivity|].
    destruct (nlt _ _); eexists; reflexivity.
  - assert (Hb : is_method (rotationMethod (opts t)) "bell" = true).
    { destruct (rotationMethod (opts t)) as [m|]; [|discriminate H].
      cbn [includes existsb is_method] in *.
      apply orb_false_iff in E0. destruct E0 as [_ E0].
      apply orb_false_iff in E0. destruct E0 as [E1 E0].
      apply orb_false_iff in E0. destruct E0 as [E2 _].
      rewrite E1, E2 in H. cbn [orb] in H. rewrite orb_false_r in H.
      exact H. }
    rewrite Hb. destruct (nlt _ _); eexists; reflexivity.
Qed.

Lemma arcball_not_others (m : option string) :
  includes ["shoemake"; "rounded_arcball"; "bell"]%string m = true ->
  is_method m "azel" = false /\ is_method m "trackball" = false /\
  is_method m "trackball_no_precession" = false /\
  is_method m "sphere" = false.
Proof.
  destruct m as [m|]; [|discriminate].
  cbn [includes existsb is_method]. intros H.
  apply orb_true_iff in H. destruct H as [H|H];
    [|apply orb_true_iff in H; destruct H as [H|H];
      [|rewrite orb_false_r in H]];
    apply String.eqb_eq in H; subst m; repeat split.
Qed.

Lemma arcball_sample (t : Trackball) (d : Drag) (u : vec3) (x y : num) :
  includes ["shoemake"; "rounded_arcball"; "bell"]%string
    (rotationMethod (opts t)) = true ->
  drag t = Some d ->
  startVector d = Some u ->
  isUpdatePending t = false ->
  opts (run t [MouseMove x y; AnimationFrame]) = opts t /\
  drag (run t [MouseMove x y; AnimationFrame]) = Some d /\
  isUpdatePending (run t [MouseMove x y; AnimationFrame]) = false /\
  q0 (run t [MouseMove x y; AnimationFrame]) = q0 t /\
  (forall v,
      isInBounds x y (box d) = true ->
      neqb (x - fst (startPosition d)) (Fin 0)
        && neqb (y - snd (startPosition d)) (Fin 0) = false ->
      project t x y (box d) = Some v ->
      q (run t [MouseMove x y; AnimationFrame])
      = mul (fromVectors u v) (mul (fromVectors u v) (q0 t))).
Proof.
  intros Hm Hd Hu Hp.
  destruct (isInBounds x y (box d)) eqn:Hb.
  2:{ destruct (sample_dropped t d x y Hd Hp (or_introl Hb))
        as (_ & H2 & H3 & H4 & H5).
      repeat split; try assumption. discriminate. }
  destruct (neqb (x - fst (startPosition d)) (Fin 0)
              && neqb (y - snd (startPosition d)) (Fin 0)) eqn:Hz.
  { destruct (sample_dropped t d x y Hd Hp (or_intror Hz))
      as (_ & H2 & H3 & H4 & H5).
    repeat split; try assumption. discriminate. }
  destruct (project_arcball_defined t x y (box d) Hm) as [v Hv].
  destruct (arcball_not_others _ Hm) as (N1 & N2 & N3 & N4).
  rewrite move_frame by (try rewrite Hd; congruence).
  rewrite (update_recorded t
             (set_q (recorded t x y)
                (mul (fromVectors u v) (mul (fromVectors u v) (q0 t))))
             d x y Hd Hb).
  - cbn. repeat split; try assumption.
    intros v' _ _ Hv'. rewrite Hv in Hv'. injection Hv' as <-. reflexivity.
  - unfold updateRotation.
    change (drag (recorded t x y)) with (drag t).
    change (opts (recorded t x y)) with (opts t).
    rewrite Hd, Hz, N1, N2, N3. cbn [orb].
    unfold updateSphericalMethods.
    rewrite (project_opts (recorded t x y) t) by reflexivity.
    rewrite Hu, Hv.
    change (opts (recorded t x y)) with (opts t). rewrite N4, Hm.
    reflexivity.
Qed.

(** X8: for 'shoemake', 'rounded_arcball' and 'bell' a drag keeps its
    anchor: after any number of move samples the drag session and the
    committed orientation are those of the drag start, and the next
    applied sample gives [dq * dq * committed], with [dq] the rotation
    from the start vector to the projection of the sample; the
    orientation during the drag depends on the last sample only. *)
Theorem arcball_keeps_anchor (t : Trackball) (d : Drag) (u v : vec3)
    (l : list (num * num)) (x y : num) :
  includes ["shoemake"; "rounded_arcball"; "bell"]%string
    (rotationMethod (opts t)) = true ->
  drag t = Some d ->
  startVector d = Some u ->
  isUpdatePending t = false ->
  isInBounds x y (box d) = true ->
  neqb (x - fst (startPosition d)) (Fin 0)
    && neqb (y - snd (startPosition d)) (Fin 0) = false ->
  project t x y (box d) = Some v ->
  drag (run t (samples l)) = Some d /\
  q0 (run t (samples l)) = q0 t /\
  q (run t (samples l ++ [MouseMove x y; AnimationFrame]))
  = mul (fromVectors u v) (mul (fromVectors u v) (q0 t)).
Proof.
  intros Hm Hd Hu Hp Hb Hz Hv.
  assert (H : opts (run t (samples l)) = opts t /\
              drag (run t (samples l)) = Some d /\
              isUpdatePending (run t (samples l)) = false /\
              q0 (run t (samples l)) = q0 t).
  { clear Hb Hz Hv. revert t Hm Hd Hp.
    induction l as [|[x' y'] l IH]; intros t Hm Hd Hp.
    - cbn. auto.
    - change (samples ((x', y') :: l))
        with ([MouseMove x' y'; AnimationFrame] ++ samples l).
      rewrite run_app.
      destruct (arcball_sample t d u x' y' Hm Hd Hu Hp)
        as (Ho & Hd' & Hp' & Hq0 & _).
      destruct (IH (run t [MouseMove x' y'; AnimationFrame]))
        as (Ho2 & Hd2 & Hp2 & Hq2); try assumption.
      + rewrite Ho. exact Hm.
      + rewrite Ho2, Hq2, Ho, Hq0. auto. }
  destruct H as (Ho & Hd' & Hp' & Hq0).
  split; [exact Hd'|]. split; [exact Hq0|].
  rewrite run_app.
  destruct (arcball_sample (run t (samples l)) d u x y)
    as (_ & _ & _ & _ & Hq); try assumption.
  - rewrite Ho. exact Hm.
  - rewrite (Hq v); try assumption.
    + rewrite Hq0. reflexivity.
    + rewrite (project_opts _ t) by exact Ho. exact Hv.
Qed.

(** ** The methods that commit per sample *)

(** X9: for 'trackball' two applied samples compose incrementally: the
    second rotation is built from the deltas to the first sample, not
    to the drag start, and is applied on top of the first; after each
    sample the committed orientation is the current one and the start
    position is the sample. *)
Theorem trackball_samples_compose (t : Trackball) (d : Drag)
    (x1 y1 x2 y2 : num) :
  rotationMethod (opts t) = Some "trackball"%string ->
  drag t = Some d ->
  isUpdatePending t = false ->
  isInBounds x1 y1 (box d) = true ->
  isInBounds x2 y2 (box d) = true ->
  neqb (x1 - fst (startPosition d)) (Fin 0)
    && neqb (y1 - snd (startPosition d)) (Fin 0) = false ->
  neqb (x2 - x1) (Fin 0) && neqb (y2 - y1) (Fin 0) = false ->
  q (run t ([MouseMove x1 y1; AnimationFrame]
            ++ [MouseMove x2 y2; AnimationFrame]))
  = mul (trackball_dq (nmin (box_height (box d)) (box_width (box d)))
           (x2 - x1) (y2 - y1))
      (mul (trackball_dq (nmin (box_height (box d)) (box_width (box d)))
              (x1 - fst (startPosition d)) (y1 - snd (startPosition d)))
         (q0 t)) /\
  q0 (run t ([MouseMove x1 y1; AnimationFrame]
             ++ [MouseMove x2 y2; AnimationFrame]))
  = q (run t ([MouseMove x1 y1; AnimationFrame]
              ++ [MouseMove x2 y2; AnimationFrame])) /\
  drag (run t ([MouseMove x1 y1; AnimationFrame]
               ++ [MouseMove x2 y2; AnimationFrame]))
  = Some (mkDrag (startVector d) (x2, y2) (box d)).
Proof.
  intros Hm Hd Hp Hb1 Hb2 Hz1 Hz2. rewrite run_app.
  destruct (trackball_sample t d x1 y1 Hm Hd Hp Hb1 Hz1)
    as (Ha & Hb & Hc & Hd' & He).
  set (t1 := run t [MouseMove x1 y1; AnimationFrame]) in *.
  assert (Hm1 : rotationMethod (opts t1) = Some "trackball"%string)
    by (rewrite He; exact Hm).
  destruct (trackball_sample t1 _ x2 y2 Hm1 Hc Hd' Hb2 Hz2)
    as (Ha' & Hb' & Hc' & _).
  rewrite Ha', Hb', Hc', Hb. cbn [box startPosition startVector fst snd].
  auto.
Qed.

(** X10: for 'sphere' two applied samples compose incrementally: the
    second rotation goes from the projection of the first sample to
    that of the second and is applied on top of the first; the start
    vector and the start position follow the samples. *)
Theorem sphere_samples_compose (t : Trackball) (d : Drag)
    (x1 y1 x2 y2 : num) (u v1 v2 : vec3) :
  rotationMethod (opts t) = Some "sphere"%string ->
  drag t = Some d ->
  startVector d = Some u ->
  isUpdatePending t = false ->
  isInBounds x1 y1 (box d) = true ->
  isInBounds x2 y2 (box d) = true ->
  neqb (x1 - fst (startPosition d)) (Fin 0)
    && neqb (y1 - snd (startPosition d)) (Fin 0) = false ->
  neqb (x2 - x1) (Fin 0) && neqb (y2 - y1) (Fin 0) = false ->
  project t x1 y1 (box d) = Some v1 ->
  project t x2 y2 (box d) = Some v2 ->
  q (run t ([MouseMove x1 y1; AnimationFrame]
            ++ [MouseMove x2 y2; AnimationFrame]))
  = mul (fromVectors v1 v2) (mul (fromVectors u v1) (q0 t)) /\
  q0 (run t ([MouseMove x1 y1; AnimationFrame]
             ++ [MouseMove x2 y2; AnimationFrame]))
  = q (run t ([MouseMove x1 y1; AnimationFrame]
              ++ [MouseMove x2 y2; AnimationFrame])) /\
  drag (run t ([MouseMove x1 y1; AnimationFrame]
               ++ [MouseMove x2 y2; AnimationFrame]))
  = Some (mkDrag (Some v2) (x2, y2) (box d)).
Proof.
  intros Hm Hd Hu Hp Hb1 Hb2 Hz1 Hz2 Hv1 Hv2. rewrite run_app.
  destruct (sphere_sample t d x1 y1 u v1 Hm Hd Hp Hb1 Hz1 Hu Hv1)
    as (Ha & Hb & Hc & Hd' & He).
  set (t1 := run t [MouseMove x1 y1; AnimationFrame]) in *.
  assert (Hm1 : rotationMethod (opts t1) = Some "sphere"%string)
    by (rewrite He; exact Hm).
  assert (Hv2' : project t1 x2 y2 (box d) = Some v2).
  { rewrite (project_opts t1 t) by exact He. exact Hv2. }
  destruct (sphere_sample t1 _ x2 y2 v1 v2 Hm1 Hc Hd' Hb2 Hz2 eq_refl Hv2')
    as (Ha' & Hb' & Hc' & _).
  rewrite Ha', Hb', Hc', Hb. cbn [box]. auto.
Qed.

(** ** Programmatic rotation *)

Lemma mul_ONE_r (c : Quaternion) : finiteQ c -> mul c ONE = c.
Proof.
  intros (Hc1 & Hc2 & Hc3 & Hc4). destruct c as [c1 c2 c3 c4]. simpl in *.
  destruct Hc1 as [? ->], Hc2 as [? ->], Hc3 as [? ->], Hc4 as [? ->].
  unfold mul, ONE. cbn [qw qx qy qz]. num_simpl. f_equal; f_equal; ring.
Qed.

(** X11: with no drag active and finite quaternions, [rotate(a)]
    followed by [rotate(b)] leaves the orientation of one
    [rotate(a.mul(b))], and [rotate(ONE)] leaves the orientation as it
    is. *)
Theorem rotate_composes (t : Trackball) (a b : Quaternion) :
  drag t = None ->
  finiteQ (q0 t) -> finiteQ a -> finiteQ b ->
  q (rotate (rotate t a) b) = q (rotate t (mul a b)) /\
  q0 (rotate (rotate t a) b) = q0 (rotate t (mul a b)) /\
  q (rotate t ONE) = q0 t /\ q0 (rotate t ONE) = q0 t.
Proof.
  intros Hd Hq Ha Hb.
  assert (H1 : rotate t a = draw (set_q (set_q0 t (mul (q0 t) a))
                                    (mul (q0 t) a)))
    by (unfold rotate; rewrite Hd; reflexivity).
  assert (H2 : forall c, q (rotate t c) = mul (q0 t) c /\
                         q0 (rotate t c) = mul (q0 t) c)
    by (intros c; unfold rotate; rewrite Hd; split; reflexivity).
  assert (H3 : q (rotate (rotate t a) b) = mul (mul (q0 t) a) b /\
               q0 (rotate (rotate t a) b) = mul (mul (q0 t) a) b).
  { rewrite H1. unfold rotate.
    cbn [drag draw set_drawn set_q set_q0]. rewrite Hd. split; reflexivity. }
  destruct H3 as [H3 H4]. destruct (H2 (mul a b)) as [H5 H6].
  destruct (H2 ONE) as [H7 H8].
  rewrite H3, H4, H5, H6, H7, H8.
  rewrite <- mul_assoc_finite by assumption.
  rewrite mul_ONE_r by assumption. auto.
Qed.

(** ** A move recorded at the end of a drag *)

(** X12: a move recorded but not yet applied when the drag ends is
    never applied: the mouse-up clears it, so the frame that runs
    after the next mouse-down leaves the orientation of the mouse-up,
    which is committed. *)
Theorem stale_move_not_applied (t : Trackball) (x y sx sy : num) (b : Box) :
  drag t <> None ->
  q (run t [MouseMove x y; MouseUp; MouseDown sx sy b; AnimationFrame])
  = q t /\
  q0 (run t [MouseMove x y; MouseUp; MouseDown sx sy b; AnimationFrame])
  = q t /\
  lastMousePosition
    (run t [MouseMove x y; MouseUp; MouseDown sx sy b; AnimationFrame])
  = None.
Proof.
  intros Hd. destruct t as [? ? ? ? ? ? dr pending ? ? fr ?].
  cbn [drag] in Hd. destruct dr as [d|]; [|contradiction].
  destruct pending, fr; repeat split.
Qed.

(** ** The angle of the trackball methods *)

(** X13: for the trackball methods a drag across the smaller side of
    the box is a half turn: horizontally about the Y axis, vertically
    about the X axis (quaternions (0, 0, 1, 0) and (0, 1, 0, 0)). *)
Theorem trackball_full_drag_is_half_turn (m : R) :
  m <> 0 ->
  trackball_dq (Fin m) (Fin m) (Fin 0)
  = mkQuaternion (Fin 0) (Fin 0) (Fin 1) (Fin 0) /\
  trackball_dq (Fin m) (Fin 0) (Fin m)
  = mkQuaternion (Fin 0) (Fin 1) (Fin 0) (Fin 0).
Proof.
  intros Hm.
  assert (Hx : rnorm m m 0 = 1).
  { unfold rnorm.
    replace (0 / m * (0 / m) + m / m * (m / m) + 0 * 0) with 1
      by (field; exact Hm).
    apply sqrt_1. }
  assert (Hy : rnorm m 0 m = 1).
  { unfold rnorm.
    replace (m / m * (m / m) + 0 / m * (0 / m) + 0 * 0) with 1
      by (field; exact Hm).
    apply sqrt_1. }
  split.
  - rewrite trackball_dq_fin by (try exact Hm; intros [H _]; contradiction).
    cbv zeta. rewrite Hx.
    replace (1 * PI / 2) with (PI / 2) by field.
    rewrite cos_PI2, sin_PI2. f_equal; f_equal; field; exact Hm.
  - rewrite trackball_dq_fin by (try exact Hm; intros [_ H]; contradiction).
    cbv zeta. rewrite Hy.
    replace (1 * PI / 2) with (PI / 2) by field.
    rewrite cos_PI2, sin_PI2. f_equal; f_equal; field; exact Hm.
Qed.

(** ** Unit orientations under the trackball methods *)

Lemma unit_identity : unit (mkQuaternion (Fin 1) (Fin 0) (Fin 0) (Fin 0)).
Proof.
  unfold unit, norm2. cbn [qw qx qy qz]. num_simpl. f_equal. ring.
Qed.

Lemma unit_inv_ext (t t' : Trackball) :
  q t' = q t -> q0 t' = q0 t -> drag t' = drag t ->
  lastMousePosition t' = lastMousePosition t ->
  unit_inv t -> unit_inv t'.
Proof.
  unfold unit_inv. intros -> -> -> ->. auto.
Qed.

Lemma nonzero_deltas (dx dy : R) :
  neqb (Fin dx) (Fin 0) && neqb (Fin dy) (Fin 0) = false ->
  ~ (dx = 0 /\ dy = 0).
Proof.
  intros H [Hx Hy]. rewrite (neqb_true _ _ Hx), (neqb_true _ _ Hy) in H.
  discriminate.
Qed.

Lemma update_unit_inv (t : Trackball) :
  is_method (rotationMethod (opts t)) "trackball"
    || is_method (rotationMethod (opts t)) "trackball_no_precession" = true ->
  unit_inv t -> unit_inv (update t).
Proof.
  intros Hm Hi. unfold update.
  destruct (lastMousePosition t) as [[cx cy]|] eqn:Hl;
    [|apply (unit_inv_ext t); auto].
  destruct (drag t) as [d|] eqn:Hd; [|apply (unit_inv_ext t); auto].
  destruct (isInBounds cx cy (box d)); [|apply (unit_inv_ext t); auto].
  destruct Hi as (Hq & Hq0 & Hdr & Hlm).
  destruct (Hdr d Hd) as ([sx Hsx] & [sy Hsy] & (m & Hmin & Hm0)).
  destruct (Hlm (cx, cy) Hl) as ([x Hx] & [y Hy]). cbn [fst snd] in Hx, Hy.
  subst cx cy.
  assert (Hazel : is_method (rotationMethod (opts t)) "azel" = false).
  { apply orb_true_iff in Hm.
    destruct Hm as [H|H]; apply is_method_eq in H; rewrite H; reflexivity. }
  unfold updateRotation. rewrite Hd, Hsx, Hsy. num_simpl.
  destruct (neqb (Fin (x - sx)) (Fin 0) && neqb (Fin (y - sy)) (Fin 0))
    eqn:Hz.
  - apply (unit_inv_ext t); try reflexivity. unfold unit_inv. auto.
  - rewrite Hazel, Hm.
    apply nonzero_deltas in Hz.
    destruct (updateTrackball_unit t d (x - sx) (y - sy) m (Fin x) (Fin y)
                Hmin Hm0 Hz Hq0) as [Hu Hu0].
    set (t' := updateTrackball t d (Fin (x - sx)) (Fin (y - sy))
                 (Fin x) (Fin y)) in *.
    assert (Hdr' : forall d', drag t' = Some d' ->
              finite (fst (startPosition d')) /\
              finite (snd (startPosition d')) /\ box_min_ok (box d')).
    { unfold t', updateTrackball. cbn [opts set_q].
      destruct (is_method (rotationMethod (opts t)) "trackball").
      - cbn [drag set_drag]. intros d' E. injection E as <-.
        cbn [startPosition box fst snd].
        repeat split; try (eexists; reflexivity). exists m. auto.
      - cbn [drag set_q]. intros d' E. apply Hdr. exact E. }
    assert (Hlm' : lastMousePosition t' = lastMousePosition t).
    { unfold t', updateTrackball. cbn [opts set_q].
      destruct (is_method (rotationMethod (opts t)) "trackball");
        reflexivity. }
    unfold unit_inv.
    cbn [q q0 drag lastMousePosition set_isUpdatePending draw set_drawn].
    rewrite Hlm'.
  split; [exact Hu|]. split; [exact Hu0|]. split; [exact Hdr'|exact Hlm].
Qed.

Lemma step_unit_inv (t : Trackball) (e : Event) :
  is_method (rotationMethod (opts t)) "trackball"
    || is_method (rotationMethod (opts t)) "trackball_no_precession" = true ->
  wf_event e -> unit_inv t -> unit_inv (step t e).
Proof.
  intros Hm He Hi.
  destruct e as [cx cy rect|cx cy| | |quat|]; cbn [step wf_event] in *.
  - destruct Hi as (Hq & Hq0 & Hdr & Hlm). destruct He as (Hx & Hy & Hb).
    unfold unit_inv, handleMouseDown.
    cbn [q q0 drag lastMousePosition draw set_drawn set_drag].
    split; [exact Hq|]. split; [exact Hq0|]. split; [|exact Hlm].
    intros d E. injection E as <-. cbn [startPosition box fst snd]. auto.
  - unfold handleMouseMove. destruct (drag t) eqn:Hd; [|exact Hi].
    destruct Hi as (Hq & Hq0 & Hdr & Hlm). destruct He as (Hx & Hy).
    assert (Hi' : unit_inv (set_lastMousePosition t (Some (cx, cy)))).
    { unfold unit_inv. cbn [q q0 drag lastMousePosition set_lastMousePosition].
      split; [exact Hq|]. split; [exact Hq0|]. split; [exact Hdr|].
      intros p E. injection E as <-. cbn [fst snd]. auto. }
    destruct (negb _); [|exact Hi'].
    apply (unit_inv_ext (set_lastMousePosition t (Some (cx, cy))));
      auto.
  - unfold handleMouseUp. destruct (drag t) eqn:Hd; [|exact Hi].
    destruct Hi as (Hq & Hq0 & Hdr & Hlm). unfold unit_inv.
    cbn [q q0 drag lastMousePosition draw set_drawn set_drag set_q0
           set_lastMousePosition set_azimuth_start set_elevation_start].
    split; [exact Hq|]. split; [exact Hq|]. split; discriminate.
  - destruct (frameRequested t); [|exact Hi].
    apply update_unit_inv; [exact Hm|].
    apply (unit_inv_ext t); auto.
  - unfold rotate. destruct (drag t) eqn:Hd; [exact Hi|].
    destruct Hi as (Hq & Hq0 & Hdr & Hlm). unfold unit_inv.
    cbn [q q0 drag lastMousePosition draw set_drawn set_q set_q0].
    rewrite Hd.
    split; [apply unit_mul; assumption|].
    split; [apply unit_mul; assumption|]. split; [discriminate|exact Hlm].
  - destruct Hi as (Hq & Hq0 & Hdr & Hlm). unfold unit_inv, reset.
    cbn [q q0 drag lastMousePosition draw set_drawn set_q set_q0 set_drag
           set_azimuth set_azimuth_start set_elevation set_elevation_start].
    split; [apply unit_identity|]. split; [apply unit_identity|].
    split; [discriminate|exact Hlm].
Qed.

(** X14: for 'trackball' and 'trackball_no_precession', from a unit
    initial orientation and through any events with finite pointer
    positions, boxes whose smaller side is not zero and unit arguments
    of [rotate], the current and the committed orientation are unit
    quaternions. *)
Theorem trackball_orientation_stays_unit (o : Options) (evs : list Event) :
  is_method (o_rotationMethod o) "trackball"
    || is_method (o_rotationMethod o) "trackball_no_precession" = true ->
  unit (default ONE (o_q o)) ->
  Forall wf_event evs ->
  unit (q (run (constructor o) evs)) /\ unit (q0 (run (constructor o) evs)).
Proof.
  intros Hm Hq Hev.
  assert (H : forall l t,
             is_method (rotationMethod (opts t)) "trackball"
               || is_method (rotationMethod (opts t))
                    "trackball_no_precession" = true ->
             Forall wf_event l -> unit_inv t -> unit_inv (run t l)).
  { induction l as [|e l IH]; intros t Ht Hl Hi; [exact Hi|].
    inversion Hl; subst. cbn [run fold_left]. fold (run (step t e) l).
    apply IH; [rewrite step_opts; exact Ht|assumption|].
    apply step_unit_inv; assumption. }
  assert (Hc : rotationMethod (opts (constructor o)) = o_rotationMethod o).
  { unfold constructor. cbn [opts draw set_drawn rotationMethod].
    destruct (is_method (o_rotationMethod o) "rounded_arcball");
      reflexivity. }
  destruct (H evs (constructor o)) as (H1 & H2 & _).
  - rewrite Hc. exact Hm.
  - exact Hev.
  - unfold unit_inv, constructor.
    cbn [q q0 drag lastMousePosition draw set_drawn].
    split; [exact Hq|]. split; [exact Hq|]. split; discriminate.
  - auto.
Qed.

(** ** The projection of the sphere family *)

Lemma inner_radius_bounds (ra : R) :
  1 <= ra -> 2 <= ra + 1 / ra /\ 0 < 2 / (ra + 1 / ra) <= 1.
Proof.
  intros H.
  assert (H1 : ra + 1 / ra - 2 = (ra - 1) * (ra - 1) / ra) by (field; lra).
  assert (H2 : 0 <= (ra - 1) * (ra - 1) / ra).
  { apply Rmult_le_pos; [nra|]. apply Rlt_le, Rinv_0_lt_compat. lra. }
  assert (H3 : 2 <= ra + 1 / ra) by lra.
  split; [exact H3|]. split.
  - apply Rdiv_lt_0_compat; lra.
  - set (s := ra + 1 / ra) in *.
    apply (Rmult_le_reg_r s); [lra|].
    replace (2 / s * s) with 2 by (field; lra).
    lra.
Qed.

(** X15: for 'sphere', 'shoemake' and 'rounded_arcball' with a border
    that is not negative, every point with finite normalised
    coordinates has a finite projection on or above the plane: the
    square roots of the cap and of the skirt are never taken of a
    negative number. *)
Theorem project_sphere_family_finite (t : Trackball) (x y : num) (b : Box)
    (px py bd : R) :
  includes ["sphere"; "shoemake"; "rounded_arcball"]%string
    (rotationMethod (opts t)) = true ->
  border (opts t) = Fin bd ->
  0 <= bd ->
  project_px t x b = Fin px ->
  project_py t y b = Fin py ->
  exists z : R,
    project t x y b = Some (Fin px, Fin py, Fin z) /\ 0 <= z.
Proof.
  intros Hm Hb Hbd Hx Hy. unfold project. rewrite Hm, Hb, Hx, Hy.
  num_simpl.
  rewrite (ndiv_fin bd 2) by lra.
  rewrite (ndiv_fin 1 (1 + bd)) by lra. num_simpl.
  set (ra := 1 + bd).
  assert (Hra : 1 <= ra) by (unfold ra; lra).
  destruct (inner_radius_bounds ra Hra) as (Hs & Hri0 & Hri1).
  rewrite (ndiv_fin 2 (ra + 1 / ra)) by lra.
  set (ri := 2 / (ra + 1 / ra)) in *.
  set (a := bd * (1 + bd / 2)).
  assert (Ha : a = (ra * ra - 1) / 2) by (unfold a, ra; field).
  set (d2 := (px * px + py * py) * (ra * ra)).
  assert (Hd2 : 0 <= d2).
  { assert (H1 := Rle_0_sqr px). assert (H2 := Rle_0_sqr py).
    assert (H3 := Rle_0_sqr ra). unfold Rsqr in *.
    unfold d2. apply Rmult_le_pos; lra. }
  rewrite (nsqrt_fin d2) by exact Hd2.
  assert (Hsq : sqrt d2 * sqrt d2 = d2) by (apply sqrt_sqrt; exact Hd2).
  assert (Hs0 := sqrt_pos d2).
  set (dist := sqrt d2) in *.
  destruct (Rlt_dec dist ri) as [Hcap|Hcap].
  - rewrite nlt_true by exact Hcap.
    assert (Hlt : d2 < 1) by (rewrite <- Hsq; nra).
    rewrite nsqrt_fin by lra.
    eexists. split; [reflexivity|]. apply sqrt_pos.
  - rewrite nlt_false by lra.
    destruct (Rlt_dec dist ra) as [Hskirt|Hplane].
    + rewrite nlt_true by exact Hskirt. num_simpl.
      assert (Hdr : 0 < ra - dist <= a).
      { split; [lra|]. rewrite Ha.
        assert (Hri : ri * (ra + 1 / ra) = 2).
        { unfold ri. set (s := ra + 1 / ra) in *. field. lra. }
        assert (Hras : ra * (ra + 1 / ra) = ra * ra + 1) by (field; lra).
        apply (Rmult_le_reg_r (ra + 1 / ra)); [lra|].
        assert (Hd : (ra - dist) * (ra + 1 / ra) <= ra * ra + 1 - 2).
        { rewrite <- Hras, <- Hri.
          replace (ra * (ra + 1 / ra) - ri * (ra + 1 / ra))
            with ((ra - ri) * (ra + 1 / ra)) by ring.
          apply Rmult_le_compat_r; lra. }
        assert (He : ra * ra + 1 - 2 <= (ra * ra - 1) / 2 * (ra + 1 / ra)).
        { assert (Hr2 : 0 <= ra * ra - 1) by nra.
          replace (ra * ra + 1 - 2) with ((ra * ra - 1) / 2 * 2) by field.
          apply Rmult_le_compat_l; lra. }
        lra. }
      assert (Hprod : 0 <= (a + (ra - dist)) * (a - (ra - dist)))
        by (apply Rmult_le_pos; lra).
      rewrite nsqrt_fin by exact Hprod.
      eexists. split; [reflexivity|].
      assert (Hle : sqrt ((a + (ra - dist)) * (a - (ra - dist))) <= a).
      { assert (Haa : sqrt (a * a) = a) by (apply sqrt_square; lra).
        rewrite <- Haa at 3.
        apply sqrt_le_1; [exact Hprod|nra|nra]. }
      lra.
    + rewrite nlt_false by lra.
      exists 0. split; [reflexivity|lra].
Qed.

(** ** A mouse-down or a reset in the middle of a drag *)

(** X16: under 'trackball_no_precession' the first applied sample
    after a mouse-down composes its rotation with the committed
    orientation, whatever the current one is: a mouse-down that
    arrives during a drag (a second button) starts a new session
    without committing, and the rotation of the interrupted drag is
    dropped. *)
Theorem mouse_down_keeps_committed (t : Trackball) (sx sy x y : num) (b : Box) :
  rotationMethod (opts t) = Some "trackball_no_precession"%string ->
  isUpdatePending t = false ->
  isInBounds x y b = true ->
  neqb (x - sx) (Fin 0) && neqb (y - sy) (Fin 0) = false ->
  q (run t ([MouseDown sx sy b] ++ [MouseMove x y; AnimationFrame]))
  = mul (trackball_dq (nmin (box_height b) (box_width b)) (x - sx) (y - sy))
      (q0 t).
Proof.
  intros Hm Hp Hb Hz. rewrite run_app.
  change (run t [MouseDown sx sy b]) with (handleMouseDown t sx sy b).
  destruct (no_precession_sample (handleMouseDown t sx sy b)
              (mkDrag (project t sx sy b) (sx, sy) b) x y Hm eq_refl Hp)
    as (_ & _ & _ & _ & Hq).
  exact (Hq Hb Hz).
Qed.

Lemma reset_then_down_frame (t : Trackball) (x y sx sy : num) (b : Box) :
  drag t <> None ->
  isUpdatePending t = false ->
  run t [MouseMove x y; Reset; MouseDown sx sy b; AnimationFrame]
  = run (handleMouseDown (reset t) sx sy b) [MouseMove x y; AnimationFrame].
Proof.
  intros Hd Hp.
  rewrite (move_frame (handleMouseDown (reset t) sx sy b))
    by (try discriminate; exact Hp).
  destruct t as [? ? ? ? ? ? dr pending ? ? fr ?].
  cbn [drag isUpdatePending] in Hd, Hp. subst pending.
  destruct dr as [d|]; [|contradiction]. reflexivity.
Qed.

(** X17: [reset] does not clear the recorded move: under
    'trackball_no_precession', a move recorded in a drag and not yet
    applied when [reset] is called is applied by the waiting frame to
    the drag that starts after the reset, as a sample of that drag on
    the identity orientation. *)
Theorem reset_keeps_recorded_move (t : Trackball) (x y sx sy : num) (b : Box) :
  rotationMethod (opts t) = Some "trackball_no_precession"%string ->
  drag t <> None ->
  isUpdatePending t = false ->
  isInBounds x y b = true ->
  neqb (x - sx) (Fin 0) && neqb (y - sy) (Fin 0) = false ->
  q (run t [MouseMove x y; Reset; MouseDown sx sy b; AnimationFrame])
  = mul (trackball_dq (nmin (box_height b) (box_width b)) (x - sx) (y - sy))
      (mkQuaternion (Fin 1) (Fin 0) (Fin 0) (Fin 0)).
Proof.
  intros Hm Hd Hp Hb Hz.
  rewrite reset_then_down_frame by assumption.
  destruct (no_precession_sample (handleMouseDown (reset t) sx sy b)
              (mkDrag (project (reset t) sx sy b) (sx, sy) b) x y Hm eq_refl Hp)
    as (_ & _ & _ & _ & Hq).
  exact (Hq Hb Hz).
Qed.

End Controller.

(** * Examples

    The statements above at concrete inputs, with [shortestArc] for the
    primitive [fromVectors]. *)

Lemma Rmin_400 : Rmin 400 400 <> 0.
Proof. unfold Rmin. destruct (Rle_dec 400 400); lra. Defined.

Lemma Rmax_400 : Rmax 400 400 - 1 <> 0.
Proof. unfold Rmax. destruct (Rle_dec 400 400); lra. Defined.

Lemma finiteQ_ONE : finiteQ ONE.
Proof. repeat split; eexists; reflexivity. Defined.

(** A click on a 'sphere' controller, then [rotate(ONE)]: idle, and
    committed and current agree. *)
Lemma idle_committed_is_current_witness :
  drag (run shortestArc (constructor (with_method "sphere"))
          [MouseDown (Fin 200) (Fin 200) box400; MouseUp; Rotate ONE]) = None /\
  q0 (run shortestArc (constructor (with_method "sphere"))
        [MouseDown (Fin 200) (Fin 200) box400; MouseUp; Rotate ONE])
  = q (run shortestArc (constructor (with_method "sphere"))
         [MouseDown (Fin 200) (Fin 200) box400; MouseUp; Rotate ONE]).
Proof.
  split; [reflexivity|].
  apply (proj1 (idle_committed_is_current shortestArc
                  (with_method "sphere")
                  [MouseDown (Fin 200) (Fin 200) box400; MouseUp; Rotate ONE])).
  reflexivity.
Defined.

(** [rotate(ONE)] right after construction, and after a mouse down. *)
Lemma rotate_idle_or_dragging_witness :
  (drag (constructor quick_start) = None /\
   q0 (rotate (constructor quick_start) ONE)
   = mul (q0 (constructor quick_start)) ONE) /\
  (drag (handleMouseDown (constructor quick_start) (Fin 200) (Fin 200) box400)
   <> None /\
   rotate (handleMouseDown (constructor quick_start) (Fin 200) (Fin 200) box400)
     ONE
   = handleMouseDown (constructor quick_start) (Fin 200) (Fin 200) box400).
Proof.
  split; split.
  - reflexivity.
  - apply (rotate_idle_or_dragging (constructor quick_start) ONE). reflexivity.
  - discriminate.
  - apply (rotate_idle_or_dragging
             (handleMouseDown (constructor quick_start) (Fin 200) (Fin 200)
                box400) ONE).
    discriminate.
Defined.


Lemma project_px_400 (t : Trackball) (x : R) :
  ballsize (opts t) = Fin (3 / 4) ->
  project_px t (Fin x) box400
  = Fin ((2 * (x - 0) - 400 - 1) / (Rmax 400 400 - 1) / (3 / 4)).
Proof.
  intros H. unfold project_px. rewrite H. cbn [box400 box_x box_width box_height].
  num_simpl. rewrite (ndiv_fin _ (Rmax 400 400 - 1)) by exact Rmax_400.
  rewrite ndiv_fin by lra. reflexivity.
Defined.

Lemma project_py_400 (t : Trackball) (y : R) :
  ballsize (opts t) = Fin (3 / 4) ->
  project_py t (Fin y) box400
  = Fin (- (2 * (y - 0) - 400 - 1) / (Rmax 400 400 - 1) / (3 / 4)).
Proof.
  intros H. unfold project_py. rewrite H. cbn [box400 box_y box_width box_height].
  num_simpl. rewrite (ndiv_fin _ (Rmax 400 400 - 1)) by exact Rmax_400.
  rewrite ndiv_fin by lra. reflexivity.
Defined.

Lemma Rmax_400_eq : Rmax 400 400 = 400.
Proof. unfold Rmax. destruct (Rle_dec 400 400); reflexivity. Defined.

(** The centre of the 400 x 400 box under 'sphere': on the cap. *)
Lemma project_border_zero_witness :
  exists z : R,
    project (constructor (with_method "sphere")) (Fin 200) (Fin 200) box400
    = Some (Fin ((2 * (200 - 0) - 400 - 1) / (Rmax 400 400 - 1) / (3 / 4)),
            Fin (- (2 * (200 - 0) - 400 - 1) / (Rmax 400 400 - 1) / (3 / 4)),
            Fin z) /\
    0 < z.
Proof.
  destruct (project_border_zero (constructor (with_method "sphere"))
              (Fin 200) (Fin 200) box400
              ((2 * (200 - 0) - 400 - 1) / (Rmax 400 400 - 1) / (3 / 4))
              (- (2 * (200 - 0) - 400 - 1) / (Rmax 400 400 - 1) / (3 / 4)))
    as (z & Hz & Hin & _).
  - reflexivity.
  - reflexivity.
  - apply project_px_400. reflexivity.
  - apply project_py_400. reflexivity.
  - exists z. split; [exact Hz|]. apply Hin.
    rewrite Rmax_400_eq.
    replace ((2 * (200 - 0) - 400 - 1) / (400 - 1) / (3 / 4))
      with (- (4 / 1197)) by field.
    replace (- (2 * (200 - 0) - 400 - 1) / (400 - 1) / (3 / 4))
      with (4 / 1197) by field.
    lra.
Defined.

Lemma isInBounds_400 (x y : R) :
  0 <= x <= 400 -> 0 <= y <= 400 -> isInBounds (Fin x) (Fin y) box400 = true.
Proof.
  intros Hx Hy. apply (isInBounds_fin x y 0 400 0 400); try reflexivity;
    assumption.
Defined.

Lemma nonzero_delta (x y sx sy : R) :
  x - sx <> 0 ->
  neqb (Fin x - Fin sx) (Fin 0) && neqb (Fin y - Fin sy) (Fin 0) = false.
Proof.
  intros H. num_simpl. rewrite (neqb_false (x - sx) 0) by exact H. reflexivity.
Defined.

(** The scenario of the specification: drag start at (200, 200) in a
    400 x 400 box, then moves to (220, 200) and (240, 200); the second
    move composes the quaternion of the deltas (40, 0) with the
    orientation from before the drag. *)
Lemma no_precession_keeps_anchor_witness :
  q (run shortestArc
       (handleMouseDown (constructor (with_method "trackball_no_precession"))
          (Fin 200) (Fin 200) box400)
       (samples [] ++ [MouseMove (Fin 220) (Fin 200); AnimationFrame]))
  = mul (trackball_dq (nmin (Fin 400) (Fin 400))
           (Fin 220 - Fin 200) (Fin 200 - Fin 200))
        ONE /\
  q (run shortestArc
       (handleMouseDown (constructor (with_method "trackball_no_precession"))
          (Fin 200) (Fin 200) box400)
       (samples [(Fin 220, Fin 200)]
        ++ [MouseMove (Fin 240) (Fin 200); AnimationFrame]))
  = mul (trackball_dq (nmin (Fin 400) (Fin 400))
           (Fin 240 - Fin 200) (Fin 200 - Fin 200))
        ONE.
Proof.
  split.
  - apply (no_precession_keeps_anchor shortestArc
             (handleMouseDown
                (constructor (with_method "trackball_no_precession"))
                (Fin 200) (Fin 200) box400)
             (mkDrag None (Fin 200, Fin 200) box400)
             [] (Fin 220) (Fin 200)).
    + reflexivity.
    + reflexivity.
    + reflexivity.
    + apply isInBounds_400; lra.
    + apply nonzero_delta. lra.
  - apply (no_precession_keeps_anchor shortestArc
             (handleMouseDown
                (constructor (with_method "trackball_no_precession"))
                (Fin 200) (Fin 200) box400)
             (mkDrag None (Fin 200, Fin 200) box400)
             [(Fin 220, Fin 200)] (Fin 240) (Fin 200)).
    + reflexivity.
    + reflexivity.
    + reflexivity.
    + apply isInBounds_400; lra.
    + apply nonzero_delta. lra.
Defined.

(** A zero-delta sample and a sample 20 pixels to the right under
    'trackball', and the projection of the centre under 'bell'. *)
Lemma no_nan_from_degenerate_geometry_witness :
  updateRotation shortestArc
    (handleMouseDown (constructor (with_method "trackball"))
       (Fin 200) (Fin 200) box400) (Fin 200) (Fin 200)
  = Some (handleMouseDown (constructor (with_method "trackball"))
            (Fin 200) (Fin 200) box400) /\
  (exists (n : R) (t' : Trackball),
      trackball_norm (Fin (Rmin 400 400)) (Fin (220 - 200)) (Fin (200 - 200))
      = Fin n /\
      0 < n /\
      updateRotation shortestArc
        (handleMouseDown (constructor (with_method "trackball"))
           (Fin 200) (Fin 200) box400) (Fin 220) (Fin 200) = Some t' /\
      finiteQ (q t')) /\
  (exists z : R,
      project (constructor (with_method "bell")) (Fin 200) (Fin 200) box400
      = Some (Fin ((2 * (200 - 0) - 400 - 1) / (Rmax 400 400 - 1) / (3 / 4)),
              Fin (- (2 * (200 - 0) - 400 - 1) / (Rmax 400 400 - 1) / (3 / 4)),
              Fin z)).
Proof.
  destruct (no_nan_from_degenerate_geometry shortestArc) as (H1 & H2 & H3).
  split; [|split].
  - apply (H1 _ (mkDrag None (Fin 200, Fin 200) box400)).
    + reflexivity.
    + cbn [startPosition fst snd]. num_simpl.
      rewrite !neqb_true by lra. reflexivity.
  - apply (H2 _ (mkDrag None (Fin 200, Fin 200) box400) 220 200 200 200).
    + reflexivity.
    + reflexivity.
    + reflexivity.
    + exact Rmin_400.
    + reflexivity.
    + exact finiteQ_ONE.
    + intros [H _]. lra.
  - destruct (H3 (constructor (with_method "bell")) (Fin 200) (Fin 200) box400
                ((2 * (200 - 0) - 400 - 1) / (Rmax 400 400 - 1) / (3 / 4))
                (- (2 * (200 - 0) - 400 - 1) / (Rmax 400 400 - 1) / (3 / 4))
                0)
      as (z & Hz & _).
    + reflexivity.
    + reflexivity.
    + apply project_px_400. reflexivity.
    + apply project_py_400. reflexivity.
    + exists z. exact Hz.
Defined.

(** [shortestArc] meets the hypothesis of the round trip on the
    projections of 'sphere' with border 0 in the 400 x 400 box. *)
Lemma shortestArc_inverse_400 (x1 y1 x2 y2 : R) (u v : vec3) :
  project (constructor (with_method "sphere")) (Fin x1) (Fin y1) box400 = Some u ->
  project (constructor (with_method "sphere")) (Fin x2) (Fin y2) box400 = Some v ->
  mul (shortestArc v u) (shortestArc u v) = ONE.
Proof.
  intros Hu Hv.
  assert (Hb : ballsize (opts (constructor (with_method "sphere")))
               = Fin (3 / 4)) by reflexivity.
  destruct (project_cap_or_plane (constructor (with_method "sphere"))
              (Fin x1) (Fin y1) box400 _ _ eq_refl eq_refl
              (project_px_400 _ x1 Hb) (project_py_400 _ y1 Hb))
    as (z1 & Hz1 & _).
  destruct (project_cap_or_plane (constructor (with_method "sphere"))
              (Fin x2) (Fin y2) box400 _ _ eq_refl eq_refl
              (project_px_400 _ x2 Hb) (project_py_400 _ y2 Hb))
    as (z2 & Hz2 & _).
  rewrite Hz1 in Hu. rewrite Hz2 in Hv.
  injection Hu as <-. injection Hv as <-.
  apply shortestArc_inverse.
Defined.

(** A drag from (200, 200) to (220, 210) and back, under 'trackball' and
    under 'sphere' with [shortestArc]. *)
Lemma round_trip_restores_witness :
  q (run shortestArc (constructor (with_method "trackball"))
       [MouseDown (Fin 200) (Fin 200) box400;
        MouseMove (Fin 220) (Fin 210); AnimationFrame;
        MouseMove (Fin 200) (Fin 200); AnimationFrame])
  = q (constructor (with_method "trackball")) /\
  q (run shortestArc (constructor (with_method "sphere"))
       [MouseDown (Fin 200) (Fin 200) box400;
        MouseMove (Fin 220) (Fin 210); AnimationFrame;
        MouseMove (Fin 200) (Fin 200); AnimationFrame])
  = q (constructor (with_method "sphere")).
Proof.
  split.
  - apply (round_trip_restores shortestArc
             (constructor (with_method "trackball")) box400 200 200 220 210).
    + reflexivity.
    + reflexivity.
    + exact finiteQ_ONE.
    + reflexivity.
    + apply isInBounds_400; lra.
    + left. split; [reflexivity|]. exists (Rmin 400 400).
      split; [reflexivity|exact Rmin_400].
  - apply (round_trip_restores shortestArc
             (constructor (with_method "sphere")) box400 200 200 220 210).
    + reflexivity.
    + reflexivity.
    + exact finiteQ_ONE.
    + reflexivity.
    + apply isInBounds_400; lra.
    + right. split; [reflexivity|]. intros u v.
      apply shortestArc_inverse_400.
Defined.

(** ** Examples of the further properties *)

Lemma box_min_ok_400 : box_min_ok box400.
Proof. exists (Rmin 400 400). split; [reflexivity|exact Rmin_400]. Defined.

Lemma isInBounds_400_right (x y : R) :
  400 < x -> isInBounds (Fin x) (Fin y) box400 = false.
Proof.
  intros H. unfold isInBounds, nge. cbn [box400 box_left box_right].
  rewrite (nle_true 0 x) by lra. rewrite (nle_false x 400) by lra.
  reflexivity.
Defined.

(** Moves and a mouse-up on a controller that was never dragged. *)
Lemma idle_ignores_pointer_noise_witness :
  q (run shortestArc (constructor quick_start)
       [MouseMove (Fin 10) (Fin 10); AnimationFrame; MouseUp])
  = q (constructor quick_start) /\
  drawn (run shortestArc (constructor quick_start)
           [MouseMove (Fin 10) (Fin 10); AnimationFrame; MouseUp])
  = drawn (constructor quick_start).
Proof.
  destruct (idle_ignores_pointer_noise shortestArc (constructor quick_start)
              [MouseMove (Fin 10) (Fin 10); AnimationFrame; MouseUp]
              eq_refl eq_refl) as (H1 & _ & _ & H4).
  split; assumption.
Defined.

(** A sample 100 pixels to the right of the 400 x 400 box. *)
Lemma out_of_bounds_sample_dropped_witness :
  run shortestArc
    (handleMouseDown (constructor (with_method "trackball"))
       (Fin 200) (Fin 200) box400)
    [MouseMove (Fin 500) (Fin 200); AnimationFrame]
  = set_lastMousePosition
      (handleMouseDown (constructor (with_method "trackball"))
         (Fin 200) (Fin 200) box400)
      (Some (Fin 500, Fin 200)).
Proof.
  apply (out_of_bounds_sample_dropped shortestArc _
           (mkDrag None (Fin 200, Fin 200) box400)).
  - reflexivity.
  - reflexivity.
  - reflexivity.
  - apply isInBounds_400_right. lra.
Defined.

(** The Quick Start controller after its first sample: the callback
    threw. *)
Lemma quick_start_stuck :
  stuck (run shortestArc (constructor quick_start)
           ([MouseDown (Fin 200) (Fin 200) box400]
            ++ [MouseMove (Fin 220) (Fin 200); AnimationFrame])).
Proof.
  rewrite run_app.
  rewrite move_frame by (try discriminate; reflexivity).
  rewrite (update_throws shortestArc _
             (mkDrag None (Fin 200, Fin 200) box400)).
  - split; reflexivity.
  - reflexivity.
  - apply isInBounds_400; lra.
  - unfold updateRotation.
    change (drag (recorded _ (Fin 220) (Fin 200)))
      with (Some (mkDrag None (Fin 200, Fin 200) box400)).
    cbn [startPosition fst snd]. num_simpl.
    rewrite (neqb_false (220 - 200) 0) by lra.
    reflexivity.
Defined.

Lemma stuck_forever_witness :
  stuck (run shortestArc
           (run shortestArc (constructor quick_start)
              ([MouseDown (Fin 200) (Fin 200) box400]
               ++ [MouseMove (Fin 220) (Fin 200); AnimationFrame]))
           [MouseUp; Reset; MouseDown (Fin 200) (Fin 200) box400;
            MouseMove (Fin 240) (Fin 200); AnimationFrame]).
Proof.
  apply (stuck_forever shortestArc _
           [MouseUp; Reset; MouseDown (Fin 200) (Fin 200) box400;
            MouseMove (Fin 240) (Fin 200); AnimationFrame]).
  exact quick_start_stuck.
Defined.

(** The scenario of the specification for 'azel': a drag of 20 pixels to
    the right in the 400 x 400 box. *)
Lemma azel_sample_is_absolute_witness :
  q (run shortestArc
       (handleMouseDown (constructor (with_method "azel"))
          (Fin 200) (Fin 200) box400)
       ([MouseMove (Fin 220) (Fin 200); AnimationFrame] ++ [MouseUp]))
  = fromEuler (Fin (0 + (200 - 200) * (PI / Rmin 400 400)))
      (Fin (0 + (220 - 200) * (PI / Rmin 400 400))) (Fin 0).
Proof.
  apply (azel_sample_is_absolute shortestArc
           (handleMouseDown (constructor (with_method "azel"))
              (Fin 200) (Fin 200) box400)
           (mkDrag None (Fin 200, Fin 200) box400)
           220 200 200 200 (Rmin 400 400) 0 0).
  - reflexivity.
  - reflexivity.
  - reflexivity.
  - reflexivity.
  - reflexivity.
  - exact Rmin_400.
  - reflexivity.
  - reflexivity.
  - reflexivity.
  - apply isInBounds_400; lra.
  - intros [H _]. lra.
Defined.


(** A 'shoemake' drag from the centre with two samples. *)
Lemma arcball_keeps_anchor_witness :
  exists u v : vec3,
    q (run shortestArc
         (handleMouseDown (constructor (with_method "shoemake"))
            (Fin 200) (Fin 200) box400)
         (samples [(Fin 220, Fin 200)]
          ++ [MouseMove (Fin 240) (Fin 200); AnimationFrame]))
    = mul (shortestArc u v) (mul (shortestArc u v) ONE).
Proof.
  destruct (project_arcball_defined (constructor (with_method "shoemake"))
              (Fin 200) (Fin 200) box400 eq_refl) as [u Hu].
  destruct (project_arcball_defined (constructor (with_method "shoemake"))
              (Fin 240) (Fin 200) box400 eq_refl) as [v Hv].
  exists u, v.
  apply (arcball_keeps_anchor shortestArc
           (handleMouseDown (constructor (with_method "shoemake"))
              (Fin 200) (Fin 200) box400)
           (mkDrag (Some u) (Fin 200, Fin 200) box400) u v
           [(Fin 220, Fin 200)] (Fin 240) (Fin 200)).
  - reflexivity.
  - unfold handleMouseDown. cbn [drag draw set_drawn set_drag].
    rewrite Hu. reflexivity.
  - reflexivity.
  - reflexivity.
  - apply isInBounds_400; lra.
  - apply nonzero_delta. lra.
  - exact Hv.
Defined.

(** A 'trackball' drag: (200, 200), then (220, 200), then (240, 210). *)
Lemma trackball_samples_compose_witness :
  q (run shortestArc
       (handleMouseDown (constructor (with_method "trackball"))
          (Fin 200) (Fin 200) box400)
       ([MouseMove (Fin 220) (Fin 200); AnimationFrame]
        ++ [MouseMove (Fin 240) (Fin 210); AnimationFrame]))
  = mul (trackball_dq (nmin (Fin 400) (Fin 400))
           (Fin 240 - Fin 220) (Fin 210 - Fin 200))
      (mul (trackball_dq (nmin (Fin 400) (Fin 400))
              (Fin 220 - Fin 200) (Fin 200 - Fin 200))
         ONE).
Proof.
  apply (trackball_samples_compose shortestArc
           (handleMouseDown (constructor (with_method "trackball"))
              (Fin 200) (Fin 200) box400)
           (mkDrag None (Fin 200, Fin 200) box400)
           (Fin 220) (Fin 200) (Fin 240) (Fin 210)).
  - reflexivity.
  - reflexivity.
  - reflexivity.
  - apply isInBounds_400; lra.
  - apply isInBounds_400; lra.
  - apply nonzero_delta. lra.
  - apply nonzero_delta. lra.
Defined.

(** The same drag under 'sphere'. *)
Lemma sphere_samples_compose_witness :
  exists u v1 v2 : vec3,
    q (run shortestArc
         (handleMouseDown (constructor (with_method "sphere"))
            (Fin 200) (Fin 200) box400)
         ([MouseMove (Fin 220) (Fin 200); AnimationFrame]
          ++ [MouseMove (Fin 240) (Fin 210); AnimationFrame]))
    = mul (shortestArc v1 v2) (mul (shortestArc u v1) ONE).
Proof.
  destruct (project_sphere_defined (constructor (with_method "sphere"))
              (Fin 200) (Fin 200) box400 eq_refl) as [u Hu].
  destruct (project_sphere_defined (constructor (with_method "sphere"))
              (Fin 220) (Fin 200) box400 eq_refl) as [v1 Hv1].
  destruct (project_sphere_defined (constructor (with_method "sphere"))
              (Fin 240) (Fin 210) box400 eq_refl) as [v2 Hv2].
  exists u, v1, v2.
  apply (sphere_samples_compose shortestArc
           (handleMouseDown (constructor (with_method "sphere"))
              (Fin 200) (Fin 200) box400)
           (mkDrag (Some u) (Fin 200, Fin 200) box400)
           (Fin 220) (Fin 200) (Fin 240) (Fin 210) u v1 v2).
  - reflexivity.
  - unfold handleMouseDown. cbn [drag draw set_drawn set_drag].
    rewrite Hu. reflexivity.
  - reflexivity.
  - reflexivity.
  - apply isInBounds_400; lra.
  - apply isInBounds_400; lra.
  - apply nonzero_delta. lra.
  - apply nonzero_delta. lra.
  - exact Hv1.
  - exact Hv2.
Defined.

(** Two quarter turns about Z on a fresh controller. *)
Lemma rotate_composes_witness :
  q (rotate (rotate (constructor quick_start)
               (mkQuaternion (Fin 0) (Fin 0) (Fin 0) (Fin 1)))
       (mkQuaternion (Fin 0) (Fin 0) (Fin 0) (Fin 1)))
  = q (rotate (constructor quick_start)
         (mul (mkQuaternion (Fin 0) (Fin 0) (Fin 0) (Fin 1))
            (mkQuaternion (Fin 0) (Fin 0) (Fin 0) (Fin 1)))).
Proof.
  apply (rotate_composes (constructor quick_start)
           (mkQuaternion (Fin 0) (Fin 0) (Fin 0) (Fin 1))
           (mkQuaternion (Fin 0) (Fin 0) (Fin 0) (Fin 1))).
  - reflexivity.
  - exact finiteQ_ONE.
  - repeat split; eexists; reflexivity.
  - repeat split; eexists; reflexivity.
Defined.

(** A move, the end of the drag and a new drag before the frame runs. *)
Lemma stale_move_not_applied_witness :
  q (run shortestArc
       (handleMouseDown (constructor (with_method "trackball"))
          (Fin 200) (Fin 200) box400)
       [MouseMove (Fin 220) (Fin 200); MouseUp;
        MouseDown (Fin 100) (Fin 100) box400; AnimationFrame])
  = q (handleMouseDown (constructor (with_method "trackball"))
         (Fin 200) (Fin 200) box400).
Proof.
  apply (stale_move_not_applied shortestArc
           (handleMouseDown (constructor (with_method "trackball"))
              (Fin 200) (Fin 200) box400)).
  discriminate.
Defined.

(** A drag of 400 pixels in the 400 x 400 box. *)
Lemma trackball_full_drag_is_half_turn_witness :
  trackball_dq (Fin 400) (Fin 400) (Fin 0)
  = mkQuaternion (Fin 0) (Fin 0) (Fin 1) (Fin 0).
Proof.
  apply (trackball_full_drag_is_half_turn 400). lra.
Defined.

Lemma unit_half_turn_Y : unit (mkQuaternion (Fin 0) (Fin 0) (Fin 1) (Fin 0)).
Proof.
  unfold unit, norm2. cbn [qw qx qy qz]. num_simpl. f_equal. ring.
Defined.

(** A drag, a programmatic half turn and a reset under 'trackball'. *)
Lemma trackball_orientation_stays_unit_witness :
  unit (q (run shortestArc (constructor (with_method "trackball"))
             [MouseDown (Fin 200) (Fin 200) box400;
              MouseMove (Fin 220) (Fin 210); AnimationFrame; MouseUp;
              Rotate (mkQuaternion (Fin 0) (Fin 0) (Fin 1) (Fin 0));
              MouseDown (Fin 100) (Fin 100) box400;
              MouseMove (Fin 90) (Fin 100); AnimationFrame; Reset])).
Proof.
  apply (trackball_orientation_stays_unit shortestArc
           (with_method "trackball")
           [MouseDown (Fin 200) (Fin 200) box400;
            MouseMove (Fin 220) (Fin 210); AnimationFrame; MouseUp;
            Rotate (mkQuaternion (Fin 0) (Fin 0) (Fin 1) (Fin 0));
            MouseDown (Fin 100) (Fin 100) box400;
            MouseMove (Fin 90) (Fin 100); AnimationFrame; Reset]).
  - reflexivity.
  - exact unit_identity.
  - repeat apply Forall_cons; try apply Forall_nil; cbn [wf_event];
      try exact I; try exact unit_half_turn_Y;
      repeat split; try (eexists; reflexivity); exact box_min_ok_400.
Defined.

(** The centre of the box under 'rounded_arcball' (border 0.5). *)
Lemma project_sphere_family_finite_witness :
  exists z : R,
    project (constructor (with_method "rounded_arcball"))
      (Fin 200) (Fin 200) box400
    = Some (Fin ((2 * (200 - 0) - 400 - 1) / (Rmax 400 400 - 1) / (3 / 4)),
            Fin (- (2 * (200 - 0) - 400 - 1) / (Rmax 400 400 - 1) / (3 / 4)),
            Fin z) /\
    0 <= z.
Proof.
  apply (project_sphere_family_finite
           (constructor (with_method "rounded_arcball"))
           (Fin 200) (Fin 200) box400 _ _ (1 / 2)).
  - reflexivity.
  - reflexivity.
  - lra.
  - apply project_px_400. reflexivity.
  - apply project_py_400. reflexivity.
Defined.

(** A second mouse-down during a 'trackball_no_precession' drag. *)
Lemma mouse_down_keeps_committed_witness :
  q (run shortestArc
       (run shortestArc (constructor (with_method "trackball_no_precession"))
          ([MouseDown (Fin 200) (Fin 200) box400]
           ++ [MouseMove (Fin 220) (Fin 200); AnimationFrame]))
       ([MouseDown (Fin 100) (Fin 100) box400]
        ++ [MouseMove (Fin 110) (Fin 100); AnimationFrame]))
  = mul (trackball_dq (nmin (Fin 400) (Fin 400))
           (Fin 110 - Fin 100) (Fin 100 - Fin 100))
      (q0 (run shortestArc
             (constructor (with_method "trackball_no_precession"))
             ([MouseDown (Fin 200) (Fin 200) box400]
              ++ [MouseMove (Fin 220) (Fin 200); AnimationFrame]))).
Proof.
  apply (mouse_down_keeps_committed shortestArc _ (Fin 100) (Fin 100)
           (Fin 110) (Fin 100) box400).
  - rewrite run_opts. reflexivity.
  - rewrite run_app.
    destruct (no_precession_sample shortestArc
                (run shortestArc
                   (constructor (with_method "trackball_no_precession"))
                   [MouseDown (Fin 200) (Fin 200) box400])
                (mkDrag None (Fin 200, Fin 200) box400)
                (Fin 220) (Fin 200) eq_refl eq_refl eq_refl)
      as (_ & _ & H & _).
    exact H.
  - apply isInBounds_400; lra.
  - apply nonzero_delta. lra.
Defined.

(** A move, [reset()] and a new mouse-down before the frame runs. *)
Lemma reset_keeps_recorded_move_witness :
  q (run shortestArc
       (handleMouseDown (constructor (with_method "trackball_no_precession"))
          (Fin 200) (Fin 200) box400)
       [MouseMove (Fin 220) (Fin 200); Reset;
        MouseDown (Fin 100) (Fin 100) box400; AnimationFrame])
  = mul (trackball_dq (nmin (Fin 400) (Fin 400))
           (Fin 220 - Fin 100) (Fin 200 - Fin 100))
      (mkQuaternion (Fin 1) (Fin 0) (Fin 0) (Fin 0)).
Proof.
  apply (reset_keeps_recorded_move shortestArc
           (handleMouseDown
              (constructor (with_method "trackball_no_precession"))
              (Fin 200) (Fin 200) box400)
           (Fin 220) (Fin 200) (Fin 100) (Fin 100) box400).
  - reflexivity.
  - discriminate.
  - reflexivity.
  - apply isInBounds_400; lra.
  - apply nonzero_delta. lra.
Defined.
